(** * DataDock upload page: workflow state machine and preview reconciliation

    A shallow embedding of [src/frontend/src/app/page.tsx] (the [Home]
    component).  The component keeps seven [useState] cells, three event
    handlers ([handleValidate], [handleSave], [handleClear]) and a render
    function that joins [result.error_locations] against [result.previews].

    Conventions of the embedding
    - a JS object that is enumerated ([Object.entries], [Object.keys]) is an
      association list in enumeration order; a JS object that is only indexed
      ([result.error_locations[tableName]], [check.msg]) is a finite map of
      its own properties;
    - [null] in a [useState] cell is [None];
    - an [async] handler is split at its [await]: the part that runs in the
      click, and one continuation per way the awaited promise settles;
    - [alert], [console.error] and the axios calls are recorded as a list of
      effects returned next to the new state. *)

From stdpp Require Import base option list gmap strings pretty.
From Stdlib Require Import ZArith Lia.

Local Open Scope string_scope.

(** ** JavaScript scalars *)

Module Js.

(** Scalar values as they come out of [JSON.parse]; [JUndefined] is what a
    missing property reads as. Numbers are the integers, printed in
    decimal, which is how JavaScript prints the integers it holds exactly
    (up to 2^53 in size); fractions and larger numbers are not covered. *)
Inductive JsVal :=
| JUndefined
| JNull
| JBool (b : bool)
| JNum (n : Z)
| JStr (s : string).

#[global] Instance JsVal_eq_dec : EqDecision JsVal.
Proof. solve_decision. Defined.

(** ToBoolean. *)
Definition truthy (v : JsVal) : bool :=
  match v with
  | JUndefined | JNull => false
  | JBool b => b
  | JNum n => negb (n =? 0)%Z
  | JStr s => negb (String.eqb s "")
  end.

(** [a || b] *)
Definition or_else (a b : JsVal) : JsVal := if truthy a then a else b.

(** [a ?? b] *)
Definition nullish (a b : JsVal) : JsVal :=
  match a with
  | JUndefined | JNull => b
  | _ => a
  end.

(** [v === true] *)
Definition is_true (v : JsVal) : bool :=
  match v with
  | JBool true => true
  | _ => false
  end.

(** What React prints for a scalar child [{v}]: strings and numbers are
    text, booleans, [null] and [undefined] print nothing. *)
Definition render_child (v : JsVal) : string :=
  match v with
  | JStr s => s
  | JNum n => pretty n
  | _ => ""
  end.

(** Property read [o.k] on an object given by its own properties. *)
Definition get (o : gmap string JsVal) (k : string) : JsVal :=
  default JUndefined (o !! k).

End Js.

Import Js.

(** ** Data model: the validation report held in [result] *)

(** A preview row; [Object.entries(row)] enumerates it in this order. *)
Abbreviation Row := (list (string * JsVal)).

(** One coordinate [[r, c]] of [error_locations]. *)
Abbreviation Coord := (Z * string)%type.

Record Report := mkReport {
  valid : bool;
  check_results : list (string * list (string * gmap string JsVal));
  previews : list (string * list Row);
  error_locations : gmap string (list Coord)
}.

(** ** Rendering: the check list *)

Record CheckLine := mkCheckLine {
  check_name : string;
  check_passed : bool;
  check_text : string
}.

(** Lines 212-225: [passed = check.passed === true],
    [msg = check.msg || 'No message'], text [{passed ? 'PASSED' : 'FAILED'} {msg}]. *)
Definition render_check (entry : string * gmap string JsVal) : CheckLine :=
  let '(checkName, check) := entry in
  let passed := is_true (get check "passed") in
  let msg := or_else (get check "msg") (JStr "No message") in
  {| check_name := checkName;
     check_passed := passed;
     check_text := (if passed then "PASSED" else "FAILED") +:+ " " +:+ render_child msg |}.

(** Lines 207-227: one block per table, one line per check. *)
Definition render_checks (R : Report) : list (string * list CheckLine) :=
  (λ entry : string * list (string * gmap string JsVal),
     (entry.1, render_check <$> entry.2)) <$> check_results R.

(** ** Rendering: the data preview *)

Record Cell := mkCell {
  cell_col : string;
  cell_text : string;
  cell_hasError : bool
}.

Record TableView := mkTableView {
  tv_header : list string;
  tv_body : list (list Cell);
  tv_summary : option string
}.

(** The display cap of [rows.slice(0, 20)] and [rows.length > 20]. *)
Definition cap : nat := 20.

(** Line 267: [result.error_locations[tableName] || []], as far as the
    object's own properties go: the own entry, or [[]] without one. The
    lookup through the prototype chain is [errors_js] below. *)
Definition errors_for (R : Report) (tableName : string) : list Coord :=
  default [] (error_locations R !! tableName).

(** Lines 268-270: [errors.some(([r, c]) => r === rowIndex && c === col)]. *)
Definition hasError (errors : list Coord) (rowIndex : nat) (col : string) : bool :=
  existsb (λ '(r, c), (r =? Z.of_nat rowIndex)%Z && String.eqb c col) errors.

(** Lines 266-282: the cells of one body row. *)
Definition render_cell (errors : list Coord) (rowIndex : nat) (entry : string * JsVal) : Cell :=
  let '(col, value) := entry in
  {| cell_col := col;
     cell_text := render_child (nullish value (JStr "NULL"));
     cell_hasError := hasError errors rowIndex col |}.

Definition render_row (errors : list Coord) (rowIndex : nat) (row : Row) : list Cell :=
  render_cell errors rowIndex <$> row.

(** Line 256: [rows[0] && Object.keys(rows[0]).map(...)]. *)
Definition render_header (rows : list Row) : list string :=
  match rows !! 0%nat with
  | Some row0 => fst <$> row0
  | None => []
  end.

(** Line 289: the number interpolated into the summary paragraph. *)
Definition summary_count (rows : list Row) : option nat :=
  if (cap <? length rows)%nat then Some (length rows) else None.

(** Lines 288-290: [rows.length > 20 && <p>Showing first 20 rows of {rows.length}</p>]. *)
Definition render_summary (rows : list Row) : option string :=
  (λ n : nat, "Showing first 20 rows of " +:+ pretty n) <$> summary_count rows.

(** Lines 252-290: one table of the preview. *)
Definition render_table (R : Report) (tableName : string) (rows : list Row) : TableView :=
  {| tv_header := render_header rows;
     tv_body := imap (render_row (errors_for R tableName)) (take cap rows);
     tv_summary := render_summary rows |}.

(** Lines 247-292: [Object.entries(result.previews).map(...)]. *)
Definition render_previews (R : Report) : list (string * TableView) :=
  (λ entry : string * list Row,
     (entry.1, render_table R entry.1 entry.2)) <$> previews R.

(** ** Component state *)

(** [backendStatus : 'checking' | 'ready' | 'error'] *)
Inductive BackendStatus := checking | ready | error.

#[global] Instance BackendStatus_eq_dec : EqDecision BackendStatus.
Proof. solve_decision. Defined.

(** A browser [File]: a display name and opaque content. *)
Record File := mkFile {
  file_name : string;
  file_content : string
}.

(** The seven [useState] cells of lines 7-13. *)
Record State := mkState {
  dataset : string;
  file : option File;
  result : option Report;
  loading : bool;
  backendStatus : BackendStatus;
  showValidation : bool;
  showPreview : bool
}.

Definition initial_state : State :=
  {| dataset := ""; file := None; result := None; loading := false;
     backendStatus := checking; showValidation := true; showPreview := true |}.

Definition setDataset (v : string) (s : State) : State :=
  mkState v (file s) (result s) (loading s) (backendStatus s) (showValidation s) (showPreview s).

Definition setFile (v : option File) (s : State) : State :=
  mkState (dataset s) v (result s) (loading s) (backendStatus s) (showValidation s) (showPreview s).

Definition setResult (v : option Report) (s : State) : State :=
  mkState (dataset s) (file s) v (loading s) (backendStatus s) (showValidation s) (showPreview s).

Definition setLoading (v : bool) (s : State) : State :=
  mkState (dataset s) (file s) (result s) v (backendStatus s) (showValidation s) (showPreview s).

Definition setBackendStatus (v : BackendStatus) (s : State) : State :=
  mkState (dataset s) (file s) (result s) (loading s) v (showValidation s) (showPreview s).

Definition setShowValidation (v : bool) (s : State) : State :=
  mkState (dataset s) (file s) (result s) (loading s) (backendStatus s) v (showPreview s).

Definition setShowPreview (v : bool) (s : State) : State :=
  mkState (dataset s) (file s) (result s) (loading s) (backendStatus s) (showValidation s) v.

(** The two DOM nodes the handlers write to directly: the text of
    [label[for="excel-file"]] and the value of [input#excel-file]. *)
Record Dom := mkDom {
  label_text : string;
  input_value : string
}.

Definition initial_dom : Dom :=
  {| label_text := "Select file for upload"; input_value := "" |}.

(** ** Effects and failures *)

(** A rejected axios promise, as far as the [catch] blocks look into it:
    [err.response?.status], [err.response?.data?.detail], [err.code],
    [err.message]. The body [data] of an error response is taken to be a
    JSON object, the shape the service's error responses have; [detail] is
    [JUndefined] when the body has no such field. Any other body, [null]
    included, is a [RawError] below. *)
Record ErrResponse := mkErrResponse {
  status : Z;
  detail : JsVal
}.

Record AxiosError := mkAxiosError {
  response : option ErrResponse;
  code : option string;
  message : string
}.

Inductive Body :=
| FormFile (f : File)
| JsonPreviews (p : list (string * list Row)).

Inductive Effect :=
| Alert (msg : string)
| ConsoleError (err : AxiosError)
| Post (url : string) (body : Body).

Definition is_post (e : Effect) : bool :=
  match e with
  | Post _ _ => true
  | _ => false
  end.

(** Number of POSTs among the effects of one handler run. The GET of the
    health poll is an effect of [step_js] below. *)
Definition requests (eff : list Effect) : nat := length (filter (λ e, is_post e = true) eff).

(** Template-literal conversion [`${v}`]. *)
Definition template (v : JsVal) : string :=
  match v with
  | JUndefined => "undefined"
  | JNull => "null"
  | JBool true => "true"
  | JBool false => "false"
  | JNum n => pretty n
  | JStr s => s
  end.

(** The spec's names for the four alerts [handleValidate] can raise. *)
Inductive FailureClass := MissingInput | ServiceFault | Unreachable | Rejected.

#[global] Instance FailureClass_eq_dec : EqDecision FailureClass.
Proof. solve_decision. Defined.

(** [err.response?.status === 500] *)
Definition status_is_500 (err : AxiosError) : bool :=
  match response err with
  | Some r => (status r =? 500)%Z
  | None => false
  end.

(** [err.code === 'ERR_NETWORK'] *)
Definition code_is_network (err : AxiosError) : bool :=
  match code err with
  | Some c => String.eqb c "ERR_NETWORK"
  | None => false
  end.

(** [err.response?.data?.detail] *)
Definition response_detail (err : AxiosError) : JsVal :=
  match response err with
  | Some r => detail r
  | None => JUndefined
  end.

(** Lines 50-56 on such an error: the branch of the [catch] block that
    runs, and its alert. On raw errors, where evaluating the alert can
    raise, the block is [catch_alert] below. *)
Definition validate_failure (err : AxiosError) : FailureClass * string :=
  if status_is_500 err then
    (ServiceFault,
     "Server error: " +:+
       template (or_else (response_detail err) (JStr "Validation crashed. Check backend logs.")))
  else if code_is_network err then
    (Unreachable,
     "Network error — backend may be down. Check if uvicorn is running on port 8000.")
  else
    (Rejected,
     "Validation failed: " +:+ template (or_else (response_detail err) (JStr (message err)))).

(** ** Handlers *)


(** Lines 33-44: [handleValidate] up to its [await]. *)
Definition handleValidate (s : State) : State * list Effect :=
  match file s with
  | Some f =>
      if String.eqb (dataset s) "" then (s, [Alert "Please select dataset and file"])
      else (setResult None (setLoading true s),
            [Post ("http://localhost:8000/validate/" +:+ dataset s) (FormFile f)])
  | None => (s, [Alert "Please select dataset and file"])
  end.

(** Lines 45-47, 58: the POST resolved with [res.data]. *)
Definition handleValidate_resolved (data : Report) (s : State) : State * list Effect :=
  (setLoading false (setShowPreview true (setShowValidation true (setResult (Some data) s))), []).

(** Lines 48-58: the POST rejected with such an [err]; on a raw error,
    [handleValidate_rejected_js] below. *)
Definition handleValidate_rejected (err : AxiosError) (s : State) : State * list Effect :=
  (setLoading false s, [ConsoleError err; Alert (validate_failure err).2]).

(** Lines 61-64: [handleSave] up to its [await]; the guard is [!result?.valid]. *)
Definition handleSave (s : State) : State * list Effect :=
  match result s with
  | Some R =>
      if valid R then
        (s, [Post ("http://localhost:8000/save/" +:+ dataset s) (JsonPreviews (previews R))])
      else (s, [Alert "Fix validation errors first"])
  | None => (s, [Alert "Fix validation errors first"])
  end.

(** Lines 65-68: the save POST resolved. *)
Definition handleSave_resolved (s : State) : State * list Effect :=
  (setDataset "" (setFile None (setResult None s)), [Alert "Data saved to SQLite database!"]).

(** Lines 69-71: the save POST rejected. *)
Definition handleSave_rejected (err : AxiosError) (s : State) : State * list Effect :=
  (s, [Alert ("Save failed: " +:+ message err)]).

(** Lines 74-88: [handleClear]; the label and the input are always mounted. *)
Definition handleClear (sd : State * Dom) : State * Dom :=
  (setShowPreview true (setShowValidation true (setDataset "" (setFile None (setResult None sd.1)))),
   {| label_text := "Select file for upload"; input_value := "" |}).

(** Lines 152-159: [onChange] of the file input; [native] is the value the
    browser gave the input element. *)
Definition onFileChange (selected : option File) (native : string) (sd : State * Dom) : State * Dom :=
  (setFile selected sd.1,
   {| label_text := match selected with
                    | Some f => file_name f +:+ " selected"
                    | None => "Select file for upload"
                    end;
      input_value := native |}).

(** ** What the render function gates *)

(** Line 174: [disabled={loading || !file || !dataset || backendStatus !== 'ready'}]. *)
Definition validate_disabled (s : State) : bool :=
  loading s || negb (bool_decide (is_Some (file s))) || String.eqb (dataset s) ""
  || negb (bool_decide (backendStatus s = ready)).

(** Line 183: the results block, with the CLEAR button, is mounted iff [result]. *)
Definition results_rendered (s : State) : bool := bool_decide (is_Some (result s)).

(** Lines 183, 299: the SAVE button is mounted iff [result && result.valid]. *)
Definition save_rendered (s : State) : bool :=
  match result s with
  | Some R => valid R
  | None => false
  end.

(** The options of the dataset [select], lines 137-140. *)
Definition dataset_options : list string := [""; "Valuations"; "Risk"; "P&L"].

(** Lines 183-315: what is on screen below the form when [result] is set. *)
Record ResultsView := mkResultsView {
  rv_badge : string;
  rv_checks : option (list (string * list CheckLine));
  rv_previews : option (list (string * TableView));
  rv_save_button : bool
}.

Record Page := mkPage {
  page_status : BackendStatus;
  page_validate_disabled : bool;
  page_validate_label : string;
  page_results : option ResultsView
}.

(** Lines 90-318: the render function. *)
Definition render (s : State) : Page :=
  {| page_status := backendStatus s;
     page_validate_disabled := validate_disabled s;
     page_validate_label := if loading s then "Validating..." else "Validate & Preview";
     page_results :=
       (λ R : Report,
          {| rv_badge := if valid R then "PASSED" else "FAILED";
             rv_checks := if showValidation s then Some (render_checks R) else None;
             rv_previews := if showPreview s then Some (render_previews R) else None;
             rv_save_button := valid R |}) <$> result s |}.

(** ** The event loop *)

(** The component, its two hand-written DOM nodes, and the POSTs whose
    promise has not settled yet. *)
Record World := mkWorld {
  st : State;
  dom : Dom;
  validate_inflight : nat;
  save_inflight : nat
}.

Definition initial_world : World :=
  {| st := initial_state; dom := initial_dom; validate_inflight := 0; save_inflight := 0 |}.

Inductive Event :=
| HealthOk
| HealthErr
| SelectDataset (v : string)
| SelectFile (selected : option File) (native : string)
| ClickValidate
| ValidateResolved (data : Report)
| ValidateRejected (err : AxiosError)
| ClickSave
| SaveResolved
| SaveRejected (err : AxiosError)
| ClickClear
| ToggleValidation
| TogglePreview.

(** A click on the validate button: a disabled button swallows it. *)
Definition click_validate (s : State) : State * list Effect :=
  if validate_disabled s then (s, []) else handleValidate s.

(** One turn of the event loop. [None]: the event cannot happen in [w] (a
    button that is not mounted, a response with no request outstanding, a
    value the [select] does not offer). *)
Definition step (w : World) (e : Event) : option (World * list Effect) :=
  match e with
  | HealthOk =>
      Some (mkWorld (setBackendStatus ready (st w)) (dom w) (validate_inflight w) (save_inflight w), [])
  | HealthErr =>
      Some (mkWorld (setBackendStatus error (st w)) (dom w) (validate_inflight w) (save_inflight w), [])
  | SelectDataset v =>
      if bool_decide (v ∈ dataset_options) then
        Some (mkWorld (setDataset v (st w)) (dom w) (validate_inflight w) (save_inflight w), [])
      else None
  | SelectFile selected native =>
      let sd := onFileChange selected native (st w, dom w) in
      Some (mkWorld sd.1 sd.2 (validate_inflight w) (save_inflight w), [])
  | ClickValidate =>
      let r := click_validate (st w) in
      Some (mkWorld r.1 (dom w) (validate_inflight w + requests r.2) (save_inflight w), r.2)
  | ValidateResolved data =>
      match validate_inflight w with
      | S n =>
          let r := handleValidate_resolved data (st w) in
          Some (mkWorld r.1 (dom w) n (save_inflight w), r.2)
      | O => None
      end
  | ValidateRejected err =>
      match validate_inflight w with
      | S n =>
          let r := handleValidate_rejected err (st w) in
          Some (mkWorld r.1 (dom w) n (save_inflight w), r.2)
      | O => None
      end
  | ClickSave =>
      if save_rendered (st w) then
        let r := handleSave (st w) in
        Some (mkWorld r.1 (dom w) (validate_inflight w) (save_inflight w + requests r.2), r.2)
      else None
  | SaveResolved =>
      match save_inflight w with
      | S n =>
          let r := handleSave_resolved (st w) in
          Some (mkWorld r.1 (dom w) (validate_inflight w) n, r.2)
      | O => None
      end
  | SaveRejected err =>
      match save_inflight w with
      | S n =>
          let r := handleSave_rejected err (st w) in
          Some (mkWorld r.1 (dom w) (validate_inflight w) n, r.2)
      | O => None
      end
  | ClickClear =>
      if results_rendered (st w) then
        let sd := handleClear (st w, dom w) in
        Some (mkWorld sd.1 sd.2 (validate_inflight w) (save_inflight w), [])
      else None
  | ToggleValidation =>
      if results_rendered (st w) then
        Some (mkWorld (setShowValidation (negb (showValidation (st w))) (st w)) (dom w)
                (validate_inflight w) (save_inflight w), [])
      else None
  | TogglePreview =>
      if results_rendered (st w) then
        Some (mkWorld (setShowPreview (negb (showPreview (st w))) (st w)) (dom w)
                (validate_inflight w) (save_inflight w), [])
      else None
  end.

(** Worlds the page can be in: those a finite run of events leads to. *)
Inductive reachable : World → Prop :=
| reachable_init : reachable initial_world
| reachable_step w e w' eff :
    reachable w → step w e = Some (w', eff) → reachable w'.

(** Runs a list of events from [w], collecting the effects. *)
Fixpoint run (w : World) (es : list Event) : option (World * list Effect) :=
  match es with
  | [] => Some (w, [])
  | e :: es' =>
      match step w e with
      | Some (w', eff) =>
          match run w' es' with
          | Some (w'', eff') => Some (w'', (eff ++ eff')%list)
          | None => None
          end
      | None => None
      end
  end.

(** The phase names of the workflow state machine. The component has no
    phase variable; the phase is read off its cells. *)
Inductive Phase := Idle | Selecting | Validating | Reviewing.

Definition phase (s : State) : Phase :=
  if loading s then Validating
  else match result s with
       | Some _ => Reviewing
       | None =>
           if negb (bool_decide (is_Some (file s))) && String.eqb (dataset s) "" then Idle
           else Selecting
       end.

(** The cleared state the spec calls Idle: no report, no file, no selector. *)
Definition cleared (s : State) : Prop :=
  result s = None ∧ file s = None ∧ dataset s = "".

(** ** What the spec says where it differs from the render function *)


(** The spec's check line: [passed] with the outcome's [message] field. *)
Definition spec_check_text (check : gmap string JsVal) : string :=
  (if is_true (get check "passed") then "PASSED" else "FAILED")
    +:+ " " +:+ render_child (get check "message").


(** ** Sample data: the spec's end-to-end scenarios *)

Definition risk_row : Row := [("id", JNum 1); ("amount", JNum 100)].

Definition risk_check : gmap string JsVal :=
  {[ "passed" := JBool true; "message" := JStr "ok" ]}.

Definition risk_report (ok : bool) (errs : gmap string (list Coord)) : Report :=
  {| valid := ok;
     check_results := [("risk", [("nonNegative", risk_check)])];
     previews := [("risk", [risk_row])];
     error_locations := errs |}.

Definition risk_file : File := {| file_name := "risk.xlsx"; file_content := "PK" |}.

(** A preview of 25 one-column rows. *)
Definition rows25 : list Row := (λ i : nat, [("id", JNum (Z.of_nat i))]) <$> seq 0 25.

(** A 503 from a proxy in front of the service. *)
Definition err503 : AxiosError :=
  {| response := Some {| status := 503; detail := JStr "upstream down" |};
     code := Some "ERR_BAD_RESPONSE";
     message := "Request failed with status code 503" |}.

(** A refused connection. *)
Definition err_network : AxiosError :=
  {| response := None; code := Some "ERR_NETWORK"; message := "Network Error" |}.

(** The events that take the page from its initial state to a shown report. *)
Definition to_review (R : Report) : list Event :=
  [HealthOk; SelectDataset "Risk"; SelectFile (Some risk_file) "C:\fakepath\risk.xlsx";
   ClickValidate; ValidateResolved R].

(** The worlds that run passes through. *)
Definition risk_dom : Dom :=
  {| label_text := "risk.xlsx selected"; input_value := "C:\fakepath\risk.xlsx" |}.

Definition selecting_state : State :=
  {| dataset := "Risk"; file := Some risk_file; result := None; loading := false;
     backendStatus := ready; showValidation := true; showPreview := true |}.

Definition selecting_world : World :=
  {| st := selecting_state; dom := risk_dom; validate_inflight := 0; save_inflight := 0 |}.

Definition validating_world : World :=
  {| st := setLoading true selecting_state; dom := risk_dom;
     validate_inflight := 1; save_inflight := 0 |}.

Definition reviewing_world (R : Report) : World :=
  {| st := setResult (Some R) selecting_state; dom := risk_dom;
     validate_inflight := 0; save_inflight := 0 |}.

Definition saving_world (R : Report) : World :=
  {| st := setResult (Some R) selecting_state; dom := risk_dom;
     validate_inflight := 0; save_inflight := 1 |}.

(** ** The invariant of the validate call *)

(** The count of outstanding validate calls agrees with [loading], and no
    report is attached while one is outstanding. *)
Definition validating_inv (w : World) : Prop :=
  validate_inflight w = (if loading (st w) then 1 else 0)%nat
  ∧ (loading (st w) = true → result (st w) = None).

(** ** Table titles *)

(** [strip_prefix p s] is the rest of [s] after its prefix [p], if [p] is one. *)
Fixpoint strip_prefix (p s : string) : option string :=
  match p, s with
  | EmptyString, _ => Some s
  | String a p', String b s' => if Ascii.eqb a b then strip_prefix p' s' else None
  | String _ _, EmptyString => None
  end.

(** [s.replace(p, '')] for a string pattern [p]: the leftmost occurrence of
    [p] is cut out, the rest of [s] is kept. *)
Fixpoint remove_first (p s : string) : string :=
  match strip_prefix p s with
  | Some rest => rest
  | None =>
      match s with
      | EmptyString => EmptyString
      | String c s' => String c (remove_first p s')
      end
  end.

(** Lines 210, 250: [tableName.replace('pnl_', '').toUpperCase()]. The
    built-in [toUpperCase] is a parameter. *)
Definition table_title (toUpperCase : string → string) (tableName : string) : string :=
  toUpperCase (remove_first "pnl_" tableName).

(** ** Invariants of the inputs *)

(** The selector holds one of the options of the [select]; the label of the
    file input names the file that is held. *)
Definition inputs_inv (w : World) : Prop :=
  dataset (st w) ∈ dataset_options
  ∧ ∀ f : File, file (st w) = Some f → label_text (dom w) = file_name f +:+ " selected".

(** [n] clicks on SAVE in a row. *)
Definition save_clicks (n : nat) : list Event := replicate n ClickSave.

(** A coordinate list with a repetition, a row past the cap and a row
    before the first. *)
Definition noisy_errors : gmap string (list Coord) :=
  {[ "risk" := [(25%Z, "id"); (0%Z, "amount"); ((-1)%Z, "id"); (0%Z, "amount")] ]}.

(** * The page on raw service data

    The definitions above describe the page on service data of the
    expected shape: table names that are no property of [Object.prototype]
    and error responses whose body is an object. The definitions below
    drop both assumptions and add the health request: the lookup of line
    267 goes through the prototype chain, the [catch] block reads any JSON
    body, and a [TypeError] raised while rendering or inside a handler is
    [None]. *)

(** ** The lookup of line 267 *)

(** The property names a plain object inherits from [Object.prototype].
    Each resolves to a function, [__proto__] to the prototype object: a
    truthy value that is no array and has no [some]. *)
Definition object_prototype_names : list string :=
  ["constructor"; "__defineGetter__"; "__defineSetter__"; "hasOwnProperty";
   "__lookupGetter__"; "__lookupSetter__"; "isPrototypeOf"; "propertyIsEnumerable";
   "toString"; "valueOf"; "__proto__"; "toLocaleString"].

(** The value of [result.error_locations[tableName] || []]. *)
Inductive Errors :=
| Arr (errors : list Coord)
| NotArray.

Definition errors_js (R : Report) (tableName : string) : Errors :=
  match error_locations R !! tableName with
  | Some errors => Arr errors
  | None => if bool_decide (tableName ∈ object_prototype_names) then NotArray else Arr []
  end.

(** Lines 268-270: [errors.some(...)]; calling [some] on a value that has
    none raises a [TypeError]. *)
Definition some_js (errors : Errors) (rowIndex : nat) (col : string) : option bool :=
  match errors with
  | Arr errs => Some (hasError errs rowIndex col)
  | NotArray => None
  end.

Definition render_cell_js (errors : Errors) (rowIndex : nat) (entry : string * JsVal)
    : option Cell :=
  flag ← some_js errors rowIndex entry.1;
  Some {| cell_col := entry.1;
          cell_text := render_child (nullish entry.2 (JStr "NULL"));
          cell_hasError := flag |}.

Definition render_row_js (errors : Errors) (rowIndex : nat) (row : Row) : option (list Cell) :=
  mapM (render_cell_js errors rowIndex) row.

(** Lines 252-290, with the exception of line 268. *)
Definition render_table_js (R : Report) (tableName : string) (rows : list Row)
    : option TableView :=
  body ← mapM (λ ir : nat * Row, render_row_js (errors_js R tableName) ir.1 ir.2)
              (imap pair (take cap rows));
  Some {| tv_header := render_header rows;
          tv_body := body;
          tv_summary := render_summary rows |}.

Definition render_previews_js (R : Report) : option (list (string * TableView)) :=
  mapM (λ entry : string * list Row,
          tv ← render_table_js R entry.1 entry.2; Some (entry.1, tv))
       (previews R).

(** Lines 90-318: the render function; [None] when rendering raises. The
    preview is rendered only while its section is open. *)
Definition render_js (s : State) : option Page :=
  results ← match result s with
            | None => Some None
            | Some R =>
                pv ← (if showPreview s then Some <$> render_previews_js R else Some None);
                Some (Some {| rv_badge := if valid R then "PASSED" else "FAILED";
                              rv_checks := if showValidation s
                                           then Some (render_checks R) else None;
                              rv_previews := pv;
                              rv_save_button := valid R |})
            end;
  Some {| page_status := backendStatus s;
          page_validate_disabled := validate_disabled s;
          page_validate_label := if loading s then "Validating..." else "Validate & Preview";
          page_results := results |}.

(** ** JSON bodies of error responses *)

(** A parsed JSON value. A number is given by its display form, the text
    [String(n)] returns ("0" for zero): the [catch] block observes nothing
    else of a number. An object is the list of its own properties. *)
#[local] Set Warnings "-register-all".
Inductive Json :=
| JsonNull
| JsonBool (b : bool)
| JsonNum (shown : string)
| JsonStr (s : string)
| JsonArr (items : list Json)
| JsonObj (fields : list (string * Json)).

(** ToBoolean. *)
Definition json_truthy (v : Json) : bool :=
  match v with
  | JsonNull => false
  | JsonBool b => b
  | JsonNum shown => negb (String.eqb shown "0")
  | JsonStr s => negb (String.eqb s "")
  | JsonArr _ | JsonObj _ => true
  end.

(** The own property [k] of an object, if it has one. *)
Fixpoint own_property (k : string) (fields : list (string * Json)) : option Json :=
  match fields with
  | [] => None
  | (k', v) :: rest => if String.eqb k' k then Some v else own_property k rest
  end.

(** The conversion of a template literal, [`${v}`]. An array is its items
    joined by commas, [null] items being empty; an object is
    "[object Object]", unless it has an own [toString] property, which is
    no function: then the conversion raises. *)
Fixpoint json_to_string (v : Json) : option string :=
  match v with
  | JsonNull => Some "null"
  | JsonBool b => Some (if b then "true" else "false")
  | JsonNum shown => Some shown
  | JsonStr s => Some s
  | JsonArr items =>
      (fix join (first : bool) (l : list Json) {struct l} : option string :=
         match l with
         | [] => Some ""
         | x :: l' =>
             match (match x with JsonNull => Some "" | _ => json_to_string x end),
                   join false l' with
             | Some s, Some rest => Some ((if first then "" else ",") +:+ s +:+ rest)
             | _, _ => None
             end
         end) true items
  | JsonObj fields =>
      match own_property "toString" fields with
      | Some _ => None
      | None => Some "[object Object]"
      end
  end.

(** [data.detail]: [None] is the [TypeError] of reading a property of
    [null], [Some None] is [undefined]. *)
Definition read_detail (data : Json) : option (option Json) :=
  match data with
  | JsonNull => None
  | JsonObj fields => Some (own_property "detail" fields)
  | _ => Some None
  end.

(** [data?.detail] *)
Definition read_detail_chained (data : Json) : option Json :=
  default None (read_detail data).

(** [detail || fallback] *)
Definition detail_or (d : option Json) (fallback : string) : Json :=
  match d with
  | Some v => if json_truthy v then v else JsonStr fallback
  | None => JsonStr fallback
  end.

Record RawResponse := mkRawResponse {
  raw_status : Z;
  raw_data : Json
}.

(** A rejected axios promise with the response body as parsed. *)
Record RawError := mkRawError {
  raw_response : option RawResponse;
  raw_code : option string;
  raw_message : string
}.

(** Lines 50-56: the branch of the [catch] block that runs, and the text it
    alerts; [None] when evaluating the text raises and no alert is shown. *)
Definition catch_alert (err : RawError) : FailureClass * option string :=
  match raw_response err with
  | Some r =>
      if (raw_status r =? 500)%Z then
        (ServiceFault,
         d ← read_detail (raw_data r);
         text ← json_to_string (detail_or d "Validation crashed. Check backend logs.");
         Some ("Server error: " +:+ text))
      else if bool_decide (raw_code err = Some "ERR_NETWORK") then
        (Unreachable,
         Some "Network error — backend may be down. Check if uvicorn is running on port 8000.")
      else
        (Rejected,
         text ← json_to_string (detail_or (read_detail_chained (raw_data r)) (raw_message err));
         Some ("Validation failed: " +:+ text))
  | None =>
      if bool_decide (raw_code err = Some "ERR_NETWORK") then
        (Unreachable,
         Some "Network error — backend may be down. Check if uvicorn is running on port 8000.")
      else (Rejected, Some ("Validation failed: " +:+ raw_message err))
  end.

(** The errors of the first model among the raw ones: a response of the
    first model has an object as body, whose [detail] is a scalar or
    missing. *)
Definition json_of (v : JsVal) : Json :=
  match v with
  | JUndefined | JNull => JsonNull
  | JBool b => JsonBool b
  | JNum n => JsonNum (pretty n)
  | JStr s => JsonStr s
  end.

Definition body_of (detail : JsVal) : Json :=
  match detail with
  | JUndefined => JsonObj []
  | v => JsonObj [("detail", json_of v)]
  end.

Definition raw_of (err : AxiosError) : RawError :=
  {| raw_response := (λ r, {| raw_status := status r; raw_data := body_of (detail r) |})
                       <$> response err;
     raw_code := code err;
     raw_message := message err |}.

(** ** Effects and events *)

Inductive EffectJs :=
| AlertJs (msg : string)
| ConsoleErrorJs (err : RawError)
| GetJs (url : string)
| PostJs (url : string) (body : Body).

Definition is_request (e : EffectJs) : bool :=
  match e with
  | GetJs _ | PostJs _ _ => true
  | _ => false
  end.

(** The effects of the handlers that the two models share. *)
Definition lift_effect (e : Effect) : list EffectJs :=
  match e with
  | Alert msg => [AlertJs msg]
  | Post url body => [PostJs url body]
  | ConsoleError _ => []
  end.

Definition lift_effects (eff : list Effect) : list EffectJs := eff ≫= lift_effect.

(** Lines 48-58 on a raw error: when the alert text cannot be evaluated the
    exception leaves the handler and line 58 does not run. *)
Definition handleValidate_rejected_js (err : RawError) (s : State) : State * list EffectJs :=
  match (catch_alert err).2 with
  | Some msg => (setLoading false s, [ConsoleErrorJs err; AlertJs msg])
  | None => (s, [ConsoleErrorJs err])
  end.

(** Lines 69-71. *)
Definition handleSave_rejected_js (err : RawError) (s : State) : State * list EffectJs :=
  (s, [AlertJs ("Save failed: " +:+ raw_message err)]).

(** Line 21: [axios.get('http://localhost:8000/health')]. *)
Definition health_request : EffectJs := GetJs "http://localhost:8000/health".

(** The component with its outstanding calls, the health requests whose
    promise has not settled, and whether a render has raised: an exception
    in render unmounts the component, and with it the form, the buttons and
    the interval of the poll. *)
Record WorldJs := mkWorldJs {
  inner : World;
  health_inflight : nat;
  gone : bool
}.

(** The world after mount: lines 28-29 have called [checkBackend] once and
    started the interval. *)
Definition mount_effects : list EffectJs := [health_request].

Definition initial_js : WorldJs :=
  {| inner := initial_world; health_inflight := 1; gone := false |}.

Inductive EventJs :=
| JTick
| JHealthOk
| JHealthErr
| JUser (e : Event)
| JValidateResolved (data : Report)
| JValidateRejected (err : RawError)
| JSaveResolved
| JSaveRejected (err : RawError).

(** The events of [Event] that are actions of the operator. *)
Definition is_user_event (e : Event) : bool :=
  match e with
  | SelectDataset _ | SelectFile _ _ | ClickValidate | ClickSave | ClickClear
  | ToggleValidation | TogglePreview => true
  | _ => false
  end.

(** A state update, which a component that is gone ignores. *)
Definition update (w : WorldJs) (s : State) : State := if gone w then st (inner w) else s.

(** The world after the component has taken the state of [i'] and rendered
    again: it is gone if it was, or if this render raises. *)
Definition rendered (w : WorldJs) (i' : World) (h : nat) : WorldJs :=
  mkWorldJs i' h (gone w || negb (bool_decide (is_Some (render_js (st i'))))).

(** One turn of the event loop. The operator and the timer act on a mounted
    page only; a promise that settles runs its continuation either way, but
    its state updates reach a mounted component only. *)
Definition step_js (w : WorldJs) (e : EventJs) : option (WorldJs * list EffectJs) :=
  let i := inner w in
  match e with
  | JTick =>
      if gone w then None
      else Some (mkWorldJs i (S (health_inflight w)) (gone w), [health_request])
  | JHealthOk =>
      match health_inflight w with
      | S n =>
          Some (rendered w (mkWorld (update w (setBackendStatus ready (st i))) (dom i)
                              (validate_inflight i) (save_inflight i)) n, [])
      | O => None
      end
  | JHealthErr =>
      match health_inflight w with
      | S n =>
          Some (rendered w (mkWorld (update w (setBackendStatus error (st i))) (dom i)
                              (validate_inflight i) (save_inflight i)) n, [])
      | O => None
      end
  | JUser e' =>
      if gone w || negb (is_user_event e') then None
      else match step i e' with
           | Some (i', eff) => Some (rendered w i' (health_inflight w), lift_effects eff)
           | None => None
           end
  | JValidateResolved data =>
      match validate_inflight i with
      | S n =>
          let r := handleValidate_resolved data (st i) in
          Some (rendered w (mkWorld (update w r.1) (dom i) n (save_inflight i))
                  (health_inflight w), lift_effects r.2)
      | O => None
      end
  | JValidateRejected err =>
      match validate_inflight i with
      | S n =>
          let r := handleValidate_rejected_js err (st i) in
          Some (rendered w (mkWorld (update w r.1) (dom i) n (save_inflight i))
                  (health_inflight w), r.2)
      | O => None
      end
  | JSaveResolved =>
      match save_inflight i with
      | S n =>
          let r := handleSave_resolved (st i) in
          Some (rendered w (mkWorld (update w r.1) (dom i) (validate_inflight i) n)
                  (health_inflight w), lift_effects r.2)
      | O => None
      end
  | JSaveRejected err =>
      match save_inflight i with
      | S n =>
          let r := handleSave_rejected_js err (st i) in
          Some (rendered w (mkWorld (update w r.1) (dom i) (validate_inflight i) n)
                  (health_inflight w), r.2)
      | O => None
      end
  end.

Inductive reachable_js : WorldJs → Prop :=
| reachable_js_init : reachable_js initial_js
| reachable_js_step w e w' eff :
    reachable_js w → step_js w e = Some (w', eff) → reachable_js w'.

Fixpoint run_js (w : WorldJs) (es : list EventJs) : option (WorldJs * list EffectJs) :=
  match es with
  | [] => Some (w, [])
  | e :: es' =>
      match step_js w e with
      | Some (w', eff) =>
          match run_js w' es' with
          | Some (w'', eff') => Some (w'', (eff ++ eff')%list)
          | None => None
          end
      | None => None
      end
  end.

(** What holds of every world the page reaches: at most one validate call
    is outstanding and only while [loading] is on; no report is attached
    while [loading] is on; the preview of the report of a mounted page
    renders; a page that is gone has no validate call outstanding. *)
Definition inv_js (w : WorldJs) : Prop :=
  (validate_inflight (inner w) ≤ if loading (st (inner w)) then 1 else 0)%nat
  ∧ (loading (st (inner w)) = true → result (st (inner w)) = None)
  ∧ (gone w = false →
     ∀ R : Report, result (st (inner w)) = Some R → is_Some (render_previews_js R))
  ∧ (gone w = true → validate_inflight (inner w) = 0%nat).

(** ** Sample raw data *)

(** A 500 whose body is the JSON text [null]. *)
Definition err500_null : RawError :=
  {| raw_response := Some {| raw_status := 500; raw_data := JsonNull |};
     raw_code := Some "ERR_BAD_RESPONSE";
     raw_message := "Request failed with status code 500" |}.



Definition raw_network : RawError :=
  {| raw_response := None; raw_code := Some "ERR_NETWORK"; raw_message := "Network Error" |}.

(** A report with a preview table named as an inherited property, and no
    coordinates for it. *)
Definition constructor_report : Report :=
  {| valid := true;
     check_results := [];
     previews := [("constructor", [[("id", JNum 1)]])];
     error_locations := ∅ |}.

Definition selecting_js : WorldJs :=
  {| inner := selecting_world; health_inflight := 0; gone := false |}.

Definition validating_js : WorldJs :=
  {| inner := validating_world; health_inflight := 0; gone := false |}.

(** The world the page is left in when the [catch] block raises. *)
Definition stuck_js : WorldJs :=
  {| inner := mkWorld (setLoading true selecting_state) risk_dom 0 0;
     health_inflight := 0; gone := false |}.

(** * Properties *)

(** ** Reconciliation of error coordinates with preview cells *)

Lemma hasError_elem_of (errors : list Coord) (i : nat) (col : string) :
  hasError errors i col = true ↔ (Z.of_nat i, col) ∈ errors.
Proof.
  unfold hasError. rewrite existsb_exists. split.
  - intros [[r c] [Hin Hrc]]. apply andb_true_iff in Hrc as [Hr Hc].
    apply Z.eqb_eq in Hr. apply String.eqb_eq in Hc. subst.
    by apply list_elem_of_In.
  - intros Hin. exists (Z.of_nat i, col). split; [by apply list_elem_of_In|].
    by rewrite Z.eqb_refl, String.eqb_refl.
Qed.

Lemma hasError_nil (i : nat) (col : string) : hasError [] i col = false.
Proof. reflexivity. Qed.

(** A body row is the rendering of the preview row of the same index, and
    only indices below the cap have one. *)
Lemma body_lookup (R : Report) (T : string) (rows : list Row) (i : nat) (cells : list Cell) :
  tv_body (render_table R T rows) !! i = Some cells ↔
  (i < cap)%nat ∧ ∃ row, rows !! i = Some row ∧ cells = render_row (errors_for R T) i row.
Proof.
  simpl. rewrite list_lookup_imap. split.
  - intros H. apply fmap_Some in H as (row & Hrow & ->).
    apply lookup_take_Some in Hrow as [Hrow Hi]. eauto.
  - intros (Hi & row & Hrow & ->). by rewrite lookup_take_lt, Hrow.
Qed.

Lemma row_cell_lookup (errors : list Coord) (i j : nat) (row : Row) (cell : Cell) :
  render_row errors i row !! j = Some cell ↔
  ∃ v, row !! j = Some (cell_col cell, v)
       ∧ cell = render_cell errors i (cell_col cell, v).
Proof.
  unfold render_row. rewrite list_lookup_fmap. split.
  - intros H. apply fmap_Some in H as ([col v] & Hj & ->). simpl. eauto.
  - intros (v & Hj & Hc). rewrite Hj. simpl. by f_equal.
Qed.


(** Every rendered cell comes from a preview row below the cap and one of
    its columns, and its flag is [hasError] at exactly those coordinates. *)
Lemma cell_source (R : Report) (T : string) (rows : list Row)
    (i j : nat) (cells : list Cell) (cell : Cell) :
  tv_body (render_table R T rows) !! i = Some cells →
  cells !! j = Some cell →
  (i < cap)%nat ∧
  ∃ row v, rows !! i = Some row ∧ row !! j = Some (cell_col cell, v)
           ∧ cell_hasError cell = hasError (errors_for R T) i (cell_col cell).
Proof.
  intros Hi Hj. apply body_lookup in Hi as (Hcap & row & Hrow & ->).
  apply row_cell_lookup in Hj as (v & Hv & Hcell).
  split; [done|]. exists row, v. repeat split; [done..|].
  by rewrite Hcell at 1.
Qed.

Lemma errors_for_no_entry (R : Report) (T : string) :
  error_locations R !! T = None → errors_for R T = [].
Proof. unfold errors_for. by intros ->. Qed.

(** With the coordinate list [errors_for R T]: a rendered cell at row index
    [i] and column [c] is flagged iff [(i, c)] is one of the coordinates. A
    coordinate whose row index is negative or past the preview, or whose
    column the row does not have, is the coordinate of no rendered cell;
    with no own entry no cell is flagged. *)
Theorem cell_flagged_iff_error_location (R : Report) (T : string) (rows : list Row) :
  (∀ (i j : nat) (cells : list Cell) (cell : Cell),
      tv_body (render_table R T rows) !! i = Some cells →
      cells !! j = Some cell →
      cell_hasError cell = true ↔ (Z.of_nat i, cell_col cell) ∈ errors_for R T)
  ∧ (∀ (r : Z) (c : string),
      (r, c) ∈ errors_for R T →
      (r < 0 ∨ Z.of_nat (length rows) ≤ r
       ∨ ∃ row, rows !! Z.to_nat r = Some row ∧ c ∉ row.*1)%Z →
      ∀ (i j : nat) (cells : list Cell) (cell : Cell),
        tv_body (render_table R T rows) !! i = Some cells →
        cells !! j = Some cell →
        ¬ (Z.of_nat i = r ∧ cell_col cell = c))
  ∧ (error_locations R !! T = None →
      ∀ (i j : nat) (cells : list Cell) (cell : Cell),
        tv_body (render_table R T rows) !! i = Some cells →
        cells !! j = Some cell →
        cell_hasError cell = false).
Proof.
  split; [|split].
  - intros i j cells cell Hi Hj.
    destruct (cell_source R T rows i j cells cell Hi Hj) as (_ & row & v & _ & _ & ->).
    apply hasError_elem_of.
  - intros r c _ Hout i j cells cell Hi Hj [Hr Hc].
    destruct (cell_source R T rows i j cells cell Hi Hj) as (_ & row & v & Hrow & Hv & _).
    subst r c. destruct Hout as [Hneg | [Hbig | (row' & Hrow' & Hcol)]].
    + lia.
    + apply lookup_lt_Some in Hrow. lia.
    + rewrite Nat2Z.id in Hrow'. simplify_eq. apply Hcol.
      apply list_elem_of_fmap. exists (cell_col cell, v). split; [done|].
      by eapply list_elem_of_lookup_2.
  - intros Hnone i j cells cell Hi Hj.
    destruct (cell_source R T rows i j cells cell Hi Hj) as (_ & row & v & _ & _ & ->).
    by rewrite (errors_for_no_entry R T Hnone).
Qed.

(** Scenario 2 of the spec, with two inert coordinates added: the [amount]
    cell of row 0 is flagged because [(0, "amount")] is listed. *)
Lemma cell_flagged_witness :
  let R := risk_report true {[ "risk" := [(0%Z, "amount"); (7%Z, "amount"); (0%Z, "ghost")] ]} in
  (mkCell "amount" "100" true).(cell_hasError) = true ↔ (0%Z, "amount") ∈ errors_for R "risk".
Proof.
  intros R.
  apply (proj1 (cell_flagged_iff_error_location R "risk" [risk_row])
           0%nat 1%nat
           [mkCell "id" "1" false; mkCell "amount" "100" true]
           (mkCell "amount" "100" true)); reflexivity.
Defined.

(** ** The display cap *)




(** Scenario 1 of the spec: no coordinates, no cell flagged. *)
Example scenario1_preview :
  render_previews (risk_report true ∅)
  = [("risk", {| tv_header := ["id"; "amount"];
                 tv_body := [[mkCell "id" "1" false; mkCell "amount" "100" false]];
                 tv_summary := None |})].
Proof. reflexivity. Qed.

(** Scenario 2 of the spec: [[0, "amount"]] flags the amount cell only. *)
Example scenario2_preview :
  render_previews (risk_report false {[ "risk" := [(0%Z, "amount")] ]})
  = [("risk", {| tv_header := ["id"; "amount"];
                 tv_body := [[mkCell "id" "1" false; mkCell "amount" "100" true]];
                 tv_summary := None |})].
Proof. reflexivity. Qed.

(** A [null] cell prints as NULL. *)
Example null_cell :
  render_row [] 0 [("note", JNull)] = [mkCell "note" "NULL" false].
Proof. reflexivity. Qed.

(** ** The check list *)

Lemma or_else_string (v : JsVal) (fallback : string) :
  render_child (or_else v (JStr fallback))
  = match v with
    | JStr s => if String.eqb s "" then fallback else s
    | JNum n => if (n =? 0)%Z then fallback else pretty n
    | JBool true => ""
    | _ => fallback
    end.
Proof.
  destruct v as [| |[]|n|s]; simpl; try done.
  - unfold or_else; simpl. by destruct (n =? 0)%Z.
  - unfold or_else; simpl. by destruct (String.eqb s "").
Qed.

(** C9, as the render function has it: a check line carries
    [check.passed === true] as PASSED or FAILED and the outcome's [msg]
    field: the [msg] string unchanged when it is not empty, the text
    "No message" when [msg] is missing or empty. No other field of the
    outcome, [message] included, reaches the line. *)
Theorem check_line_reads_msg (checkName : string) (check : gmap string JsVal) :
  check_name (render_check (checkName, check)) = checkName
  ∧ (check_passed (render_check (checkName, check)) = true
       ↔ check !! "passed" = Some (JBool true))
  ∧ (∀ m : string, check !! "msg" = Some (JStr m) → m ≠ "" →
       check_text (render_check (checkName, check))
       = (if check_passed (render_check (checkName, check)) then "PASSED" else "FAILED")
           +:+ " " +:+ m)
  ∧ (check !! "msg" = None ∨ check !! "msg" = Some (JStr "") →
       check_text (render_check (checkName, check))
       = (if check_passed (render_check (checkName, check)) then "PASSED" else "FAILED")
           +:+ " No message")
  ∧ (∀ (k : string) (v : JsVal), k ≠ "passed" → k ≠ "msg" →
       render_check (checkName, <[k := v]> check) = render_check (checkName, check)).
Proof.
  repeat split.
  - simpl. unfold get. destruct (check !! "passed") as [[| |[]| |]|]; simpl; congruence.
  - simpl. unfold get. by intros ->.
  - intros m Hm Hne. simpl. unfold get at 2. rewrite Hm. simpl.
    rewrite or_else_string. apply String.eqb_neq in Hne. by rewrite Hne.
  - intros [Hm | Hm]; simpl; unfold get at 2; by rewrite Hm.
  - intros k v Hp Hm. unfold render_check, get.
    by rewrite !lookup_insert_ne.
Qed.

Lemma check_line_witness :
  check_text (render_check ("nonNegative", {[ "passed" := JBool false; "msg" := JStr "2 negative amounts" ]}))
  = "FAILED 2 negative amounts".
Proof.
  refine (proj1 (proj2 (proj2 (check_line_reads_msg "nonNegative"
            {[ "passed" := JBool false; "msg" := JStr "2 negative amounts" ]})))
            "2 negative amounts" _ _); [reflexivity | discriminate].
Defined.

(** C9 as the spec words it fails: the outcome of scenario 1, whose text is
    in a [message] field, is shown as "PASSED No message". *)
Lemma check_message_field_not_shown :
  risk_check !! "message" = Some (JStr "ok")
  ∧ spec_check_text risk_check = "PASSED ok"
  ∧ check_text (render_check ("nonNegative", risk_check)) = "PASSED No message"
  ∧ check_text (render_check ("nonNegative", risk_check)) ≠ spec_check_text risk_check.
Proof. repeat split; done. Qed.

(** ** Failure classification of a validate attempt *)




Lemma status_is_500_spec (err : AxiosError) :
  status_is_500 err = true ↔ ∃ r, response err = Some r ∧ status r = 500%Z.
Proof.
  unfold status_is_500. destruct (response err) as [r|].
  - rewrite Z.eqb_eq. split; [eauto|]. by intros (r' & [= <-] & ?).
  - split; [done|]. by intros (r' & [=] & ?).
Qed.

Lemma code_is_network_spec (err : AxiosError) :
  code_is_network err = true ↔ code err = Some "ERR_NETWORK".
Proof.
  unfold code_is_network. destruct (code err) as [c|].
  - rewrite String.eqb_eq. split; congruence.
  - split; congruence.
Qed.

Lemma template_or_else_string (v : JsVal) (fallback d : string) :
  v = JStr d →
  template (or_else v (JStr fallback)) = if String.eqb d "" then fallback else d.
Proof. intros ->. unfold or_else. simpl. by destruct (String.eqb d ""). Qed.

(** A timeout reaches no response either, but its code is ECONNABORTED:
    it takes the last branch. *)
Example timeout_is_rejected :
  validate_failure {| response := None; code := Some "ECONNABORTED";
                      message := "timeout of 1000ms exceeded" |}
  = (Rejected, "Validation failed: timeout of 1000ms exceeded").
Proof. reflexivity. Qed.

Example server_error_alerts :
  validate_failure {| response := Some {| status := 500; detail := JStr "bad sheet" |};
                      code := Some "ERR_BAD_RESPONSE"; message := "Request failed" |}
  = (ServiceFault, "Server error: bad sheet")
  ∧ validate_failure {| response := Some {| status := 500; detail := JUndefined |};
                        code := Some "ERR_BAD_RESPONSE"; message := "Request failed" |}
    = (ServiceFault, "Server error: Validation crashed. Check backend logs.").
Proof. split; reflexivity. Qed.

(** ** The workflow: reachable worlds *)

Lemma run_reachable (w w' : World) (es : list Event) (eff : list Effect) :
  reachable w → run w es = Some (w', eff) → reachable w'.
Proof.
  revert w eff. induction es as [|e es IH]; simpl; intros w eff Hw Hrun.
  - by simplify_eq.
  - destruct (step w e) as [[w1 eff1]|] eqn:Hstep; [|done].
    destruct (run w1 es) as [[w2 eff2]|] eqn:Hrest; [|done].
    simplify_eq. eapply IH; [|done]. by eapply reachable_step.
Qed.

Lemma validating_inv_init : validating_inv initial_world.
Proof. by split. Qed.

Lemma validating_inv_step (w w' : World) (e : Event) (eff : list Effect) :
  validating_inv w → step w e = Some (w', eff) → validating_inv w'.
Proof.
  destruct w as [[d f r l b sv sp] dm vi si]. unfold validating_inv. simpl.
  intros [Hcount Hres] Hstep.
  destruct e; simpl in Hstep;
    unfold click_validate, validate_disabled, handleValidate, save_rendered,
      results_rendered, handleSave in Hstep; simpl in Hstep;
    repeat case_match; simplify_eq; simpl in *;
    try (split; [done || lia | done || (intros ?; by auto)]).
  all: try (destruct l; simpl in *; try discriminate; split; [lia | done]).
Qed.

Lemma reachable_inv (w : World) : reachable w → validating_inv w.
Proof.
  induction 1 as [|w e w' eff _ IH Hstep]; [apply validating_inv_init|].
  by eapply validating_inv_step.
Qed.

Lemma validate_disabled_spec (s : State) :
  validate_disabled s = false ↔
  loading s = false ∧ is_Some (file s) ∧ dataset s ≠ "" ∧ backendStatus s = ready.
Proof.
  unfold validate_disabled.
  rewrite !orb_false_iff, !negb_false_iff, !bool_decide_eq_true, String.eqb_neq.
  tauto.
Qed.



(** ** Gating of validate *)



(** The handler has no guard of its own on the backend status: the gate on
    it is the disabled button alone. *)
Example handler_ignores_backend_status :
  let s := setFile (Some risk_file) (setDataset "Risk" (setBackendStatus error initial_state)) in
  validate_disabled s = true
  ∧ handleValidate s
    = (setLoading true s, [Post "http://localhost:8000/validate/Risk" (FormFile risk_file)]).
Proof. split; reflexivity. Qed.

(** ** Save *)

(** C5: with no report, or a report whose [valid] is false, [handleSave]
    raises one alert, sends no request and returns the state it was given;
    in such a state the SAVE button is not even mounted. *)
Theorem save_guard (s : State) :
  (result s = None ∨ ∃ R, result s = Some R ∧ valid R = false) →
  handleSave s = (s, [Alert "Fix validation errors first"])
  ∧ requests (handleSave s).2 = 0%nat
  ∧ save_rendered s = false
  ∧ ∀ w : World, st w = s → step w ClickSave = None.
Proof.
  intros Hs.
  assert (handleSave s = (s, [Alert "Fix validation errors first"])
          ∧ save_rendered s = false) as [Hh Hr].
  { unfold handleSave, save_rendered.
    destruct Hs as [-> | (R & -> & ->)]; by split. }
  split_and!; [done| by rewrite Hh | done |].
  intros w <-. simpl. by rewrite Hr.
Qed.

(** Scenario 4 of the spec: save on a report that failed validation. *)
Lemma save_guard_witness :
  let s := setResult (Some (risk_report false {[ "risk" := [(0%Z, "amount")] ]})) initial_state in
  handleSave s = (s, [Alert "Fix validation errors first"]).
Proof.
  intros s.
  apply (proj1 (save_guard s
    (or_intror (ex_intro _ (risk_report false {[ "risk" := [(0%Z, "amount")] ]})
                  (conj eq_refl eq_refl))))).
Defined.


(** Scenario 1 of the spec, as a run of the event loop. *)
Example scenario1_run (R : Report) :
  run initial_world (to_review R)
  = Some (reviewing_world R,
          [Post "http://localhost:8000/validate/Risk" (FormFile risk_file)])
  ∧ run initial_world [HealthOk; SelectDataset "Risk";
                       SelectFile (Some risk_file) "C:\fakepath\risk.xlsx"]
    = Some (selecting_world, [])
  ∧ step selecting_world ClickValidate
    = Some (validating_world,
            [Post "http://localhost:8000/validate/Risk" (FormFile risk_file)]).
Proof. repeat split. Qed.

Lemma reviewing_reachable (R : Report) : reachable (reviewing_world R).
Proof.
  eapply (run_reachable initial_world _ (to_review R)); [apply reachable_init|].
  apply scenario1_run.
Qed.

Lemma selecting_reachable : reachable selecting_world.
Proof.
  eapply run_reachable; [apply reachable_init|].
  apply (proj1 (proj2 (scenario1_run (risk_report true ∅)))).
Qed.

Lemma validating_reachable : reachable validating_world.
Proof.
  eapply reachable_step; [apply selecting_reachable|].
  apply (proj2 (proj2 (scenario1_run (risk_report true ∅)))).
Qed.

Lemma saving_reachable (R : Report) : valid R = true → reachable (saving_world R).
Proof.
  intros Hv. eapply (reachable_step (reviewing_world R) ClickSave);
    [apply reviewing_reachable|].
  simpl. unfold save_rendered, handleSave. simpl. rewrite Hv. reflexivity.
Qed.


(** ** Failure of a validate call *)

Lemma rejected_step (w : World) (err : AxiosError) :
  validate_inflight w ≠ 0%nat →
  step w (ValidateRejected err)
  = Some (mkWorld (setLoading false (st w)) (dom w) (pred (validate_inflight w))
            (save_inflight w),
          [ConsoleError err; Alert (validate_failure err).2]).
Proof. intros Hn. simpl. by destruct (validate_inflight w). Qed.

Example scenario3_run :
  step validating_world (ValidateRejected err_network)
  = Some (selecting_world,
          [ConsoleError err_network;
           Alert "Network error — backend may be down. Check if uvicorn is running on port 8000."]).
Proof. reflexivity. Qed.

(** ** Clear *)

(** C8: [handleClear] has no guard; from any state it leaves no report, no
    file and no selector, and a second call returns what the first did. *)
Theorem clear_total_idempotent (sd : State * Dom) :
  cleared (handleClear sd).1
  ∧ handleClear (handleClear sd) = handleClear sd.
Proof. destruct sd as [s dm]. by repeat split. Qed.

(** What [handleClear] leaves alone and what else it resets. *)
Lemma clear_frame (sd : State * Dom) :
  loading (handleClear sd).1 = loading sd.1
  ∧ backendStatus (handleClear sd).1 = backendStatus sd.1
  ∧ showValidation (handleClear sd).1 = true
  ∧ showPreview (handleClear sd).1 = true
  ∧ (handleClear sd).2 = initial_dom.
Proof. by repeat split. Qed.

(** The CLEAR button is mounted while a report is shown; clicking it in a
    reachable world leads to Idle. *)
Lemma clear_click_reaches_idle (w : World) :
  reachable w → is_Some (result (st w)) →
  ∃ w', step w ClickClear = Some (w', []) ∧ cleared (st w') ∧ phase (st w') = Idle.
Proof.
  intros Hw [R HR]. destruct (reachable_inv w Hw) as [_ Hres].
  destruct w as [[d f r l b sv sp] dm vi si]. simpl in *. subst r.
  unfold results_rendered. simpl. eexists. split; [done|].
  destruct l; [by specialize (Hres eq_refl)|]. by repeat split.
Qed.

(** ** The report during a validate call *)

(** C10: a click on the enabled validate button drops the report in the
    same turn in which the request is sent; while a validate call is
    outstanding no report is attached; so when the call is rejected there
    is no report, whatever was attached before the click. *)
Theorem validate_discards_report (w : World) :
  reachable w →
  (validate_disabled (st w) = false →
     ∃ f w', file (st w) = Some f
             ∧ step w ClickValidate
               = Some (w', [Post ("http://localhost:8000/validate/" +:+ dataset (st w))
                              (FormFile f)])
             ∧ result (st w') = None
             ∧ loading (st w') = true
             ∧ validate_inflight w' = 1%nat)
  ∧ (validate_inflight w ≠ 0%nat → result (st w) = None)
  ∧ (validate_inflight w ≠ 0%nat →
     ∀ err : AxiosError,
       ∃ w', step w (ValidateRejected err)
             = Some (w', [ConsoleError err; Alert (validate_failure err).2])
             ∧ result (st w') = None).
Proof.
  intros Hw. destruct (reachable_inv w Hw) as [Hcount Hres]. split_and!.
  - intros Hen. pose proof Hen as (Hl & [f Hf] & Hd & _)%validate_disabled_spec.
    destruct w as [[d fl r l b sv sp] dm vi si]. simpl in *. subst.
    exists f. eexists. split; [done|].
    unfold click_validate. rewrite Hen. unfold handleValidate. simpl.
    apply String.eqb_neq in Hd. rewrite Hd. simpl. by split_and!.
  - intros Hn. apply Hres. destruct (loading (st w)); [done|]. by rewrite Hcount in Hn.
  - intros Hn err. eexists. split; [by apply rejected_step|]. simpl.
    apply Hres. destruct (loading (st w)); [done|]. by rewrite Hcount in Hn.
Qed.

(** Validating again from a shown report: the report is gone as soon as
    the request is out. *)
Lemma validate_discards_report_witness :
  ∃ f w', file (st (reviewing_world (risk_report true ∅))) = Some f
          ∧ step (reviewing_world (risk_report true ∅)) ClickValidate
            = Some (w', [Post ("http://localhost:8000/validate/"
                                 +:+ dataset (st (reviewing_world (risk_report true ∅))))
                           (FormFile f)])
          ∧ result (st w') = None
          ∧ loading (st w') = true
          ∧ validate_inflight w' = 1%nat.
Proof.
  apply (proj1 (validate_discards_report (reviewing_world (risk_report true ∅))
                  (reviewing_reachable (risk_report true ∅)))).
  reflexivity.
Defined.

(** The same as a run: report shown, validate again, connection refused. *)
Example revalidate_failure_loses_report :
  run (reviewing_world (risk_report true ∅)) [ClickValidate; ValidateRejected err_network]
  = Some (selecting_world,
          [Post "http://localhost:8000/validate/Risk" (FormFile risk_file);
           ConsoleError err_network;
           Alert "Network error — backend may be down. Check if uvicorn is running on port 8000."]).
Proof. reflexivity. Qed.

(** * Further properties of the page *)

(** ** The preview depends on the visible coordinates only *)

Lemma hasError_ext (errors errors' : list Coord) (i : nat) (col : string) :
  ((Z.of_nat i, col) ∈ errors ↔ (Z.of_nat i, col) ∈ errors') →
  hasError errors i col = hasError errors' i col.
Proof.
  intros H. apply eq_true_iff_eq. by rewrite !hasError_elem_of.
Qed.

(** With the coordinate lists [errors_for R T] and [errors_for R' T]: the
    table depends on them only through the set of coordinates whose row
    index is one of the rendered rows 0..19. *)
Theorem render_table_visible_errors (R R' : Report) (T : string) (rows : list Row) :
  (∀ (i : nat) (c : string), (i < 20)%nat →
     (Z.of_nat i, c) ∈ errors_for R T ↔ (Z.of_nat i, c) ∈ errors_for R' T) →
  render_table R T rows = render_table R' T rows.
Proof.
  intros Hsame. unfold render_table. f_equal.
  apply imap_ext. intros i row Hrow.
  apply lookup_take_Some in Hrow as [_ Hi].
  unfold render_row. apply list_fmap_ext. intros j [col v] _.
  unfold render_cell. f_equal. apply hasError_ext. by apply Hsame.
Qed.

Lemma noisy_errors_visible (i : nat) (c : string) :
  (i < 20)%nat →
  (Z.of_nat i, c) ∈ errors_for (risk_report false noisy_errors) "risk"
  ↔ (Z.of_nat i, c) ∈ errors_for (risk_report false {[ "risk" := [(0%Z, "amount")] ]}) "risk".
Proof.
  intros Hi.
  change (errors_for (risk_report false noisy_errors) "risk")
    with [(25%Z, "id"); (0%Z, "amount"); ((-1)%Z, "id"); (0%Z, "amount")].
  change (errors_for (risk_report false {[ "risk" := [(0%Z, "amount")] ]}) "risk")
    with [(0%Z, "amount")].
  rewrite !elem_of_cons, elem_of_nil. split.
  - intros [H | [H | [H | [H | []]]]]; injection H as Hr Hc; (lia || (left; congruence)).
  - intros [H | []]. right. by left.
Qed.

Lemma render_table_visible_errors_witness :
  render_table (risk_report false noisy_errors) "risk" rows25
  = render_table (risk_report false {[ "risk" := [(0%Z, "amount")] ]}) "risk" rows25.
Proof.
  apply (render_table_visible_errors (risk_report false noisy_errors)
           (risk_report false {[ "risk" := [(0%Z, "amount")] ]}) "risk" rows25
           noisy_errors_visible).
Defined.

(** ** Columns of the header and of the body rows *)

(** X2: the header lists the columns of the first preview row; a body row
    has one cell per column of its own row, in that row's order. So a body
    row lines up with the header exactly when its columns are those of the
    first row, in the same order; nothing pads or reorders a row whose
    columns differ. *)
Theorem body_row_columns (R : Report) (T : string) (rows : list Row)
    (i : nat) (cells : list Cell) :
  tv_body (render_table R T rows) !! i = Some cells →
  ∃ row row0 : Row,
    rows !! i = Some row
    ∧ rows !! 0%nat = Some row0
    ∧ cell_col <$> cells = row.*1
    ∧ tv_header (render_table R T rows) = row0.*1
    ∧ (cell_col <$> cells = tv_header (render_table R T rows) ↔ row.*1 = row0.*1).
Proof.
  intros (Hi & row & Hrow & ->)%body_lookup.
  destruct (rows !! 0%nat) as [row0|] eqn:H0.
  2: { apply lookup_ge_None in H0. apply lookup_lt_Some in Hrow. lia. }
  assert (cell_col <$> render_row (errors_for R T) i row = row.*1) as Hcols.
  { unfold render_row. rewrite <- list_fmap_compose. apply list_fmap_ext.
    by intros j [col v] _. }
  assert (tv_header (render_table R T rows) = row0.*1) as Hhead.
  { simpl. unfold render_header. by rewrite H0. }
  exists row, row0. split_and!; try done. by rewrite Hcols, Hhead.
Qed.

(** A second row with an extra column and another order is rendered as it
    is, under the header of the first row. *)
Lemma body_row_columns_witness :
  ∃ row row0 : Row,
    [risk_row; [("amount", JNum 5); ("note", JNull); ("id", JNum 2)]] !! 1%nat = Some row
    ∧ [risk_row; [("amount", JNum 5); ("note", JNull); ("id", JNum 2)]] !! 0%nat = Some row0
    ∧ cell_col <$> [mkCell "amount" "5" false; mkCell "note" "NULL" false; mkCell "id" "2" false]
      = row.*1
    ∧ tv_header (render_table (risk_report true ∅) "risk"
                   [risk_row; [("amount", JNum 5); ("note", JNull); ("id", JNum 2)]])
      = row0.*1
    ∧ (cell_col <$> [mkCell "amount" "5" false; mkCell "note" "NULL" false; mkCell "id" "2" false]
       = tv_header (render_table (risk_report true ∅) "risk"
                      [risk_row; [("amount", JNum 5); ("note", JNull); ("id", JNum 2)]])
       ↔ row.*1 = row0.*1).
Proof.
  apply (body_row_columns (risk_report true ∅) "risk"
           [risk_row; [("amount", JNum 5); ("note", JNull); ("id", JNum 2)]] 1%nat).
  reflexivity.
Defined.

(** ** Alert texts *)

(** X3: the alert of a rejected validate call tells its class: two
    rejections that raise the same text took the same branch, and none of
    the three texts is the one raised for a missing selector or file. *)
Theorem alert_text_determines_class (e1 e2 : AxiosError) :
  ((validate_failure e1).2 = (validate_failure e2).2 →
   (validate_failure e1).1 = (validate_failure e2).1)
  ∧ (validate_failure e1).2 ≠ "Please select dataset and file".
Proof.
  unfold validate_failure. split.
  - destruct (status_is_500 e1), (code_is_network e1),
      (status_is_500 e2), (code_is_network e2); simpl; try done; discriminate.
  - destruct (status_is_500 e1), (code_is_network e1); simpl; discriminate.
Qed.

Lemma alert_text_determines_class_witness :
  (validate_failure err_network).1
  = (validate_failure {| response := Some {| status := 404; detail := JNull |};
                         code := Some "ERR_NETWORK"; message := "offline" |}).1.
Proof.
  apply (proj1 (alert_text_determines_class err_network
                  {| response := Some {| status := 404; detail := JNull |};
                     code := Some "ERR_NETWORK"; message := "offline" |})).
  reflexivity.
Defined.

(** ** Invariants of the inputs *)

Lemma inputs_inv_init : inputs_inv initial_world.
Proof. split; [by left | done]. Qed.

Lemma inputs_inv_step (w w' : World) (e : Event) (eff : list Effect) :
  inputs_inv w → step w e = Some (w', eff) → inputs_inv w'.
Proof.
  destruct w as [[d f r l b sv sp] dm vi si]. unfold inputs_inv. simpl.
  intros [Hd Hf] Hstep.
  destruct e; simpl in Hstep;
    unfold click_validate, validate_disabled, handleValidate, save_rendered,
      results_rendered, handleSave in Hstep; simpl in Hstep;
    repeat case_match; simplify_eq; simpl in *;
    try (split; [done | done]);
    try (split; [by left | done]).
  - match goal with
    | Hv : bool_decide _ = true |- _ => apply bool_decide_eq_true in Hv
    end.
    by split.
  - split; [done|]. by intros f' [= ->].
Qed.

Lemma reachable_inputs_inv (w : World) : reachable w → inputs_inv w.
Proof.
  induction 1 as [|w e w' eff _ IH Hstep]; [apply inputs_inv_init|].
  by eapply inputs_inv_step.
Qed.

Lemma dataset_offered (d : string) :
  d ∈ dataset_options → d ≠ "" → d ∈ ["Valuations"; "Risk"; "P&L"].
Proof.
  unfold dataset_options. rewrite elem_of_cons. by intros [-> | H] Hne.
Qed.

(** ** Requests *)

Lemma click_save_step (w : World) (R : Report) :
  result (st w) = Some R → valid R = true →
  step w ClickSave
  = Some (mkWorld (st w) (dom w) (validate_inflight w) (S (save_inflight w)),
          [Post ("http://localhost:8000/save/" +:+ dataset (st w))
             (JsonPreviews (previews R))]).
Proof.
  intros HR Hv. simpl. unfold save_rendered, handleSave. rewrite HR, Hv. simpl.
  change (requests [Post _ _]) with 1%nat. by rewrite Nat.add_1_r.
Qed.

(** X5: SAVE has no guard on calls already outstanding: [n] clicks in a
    row on a valid report send [n] identical requests, all of which stay
    outstanding, and leave the state as it was. *)
Theorem save_clicks_all_sent (w : World) (R : Report) (n : nat) :
  result (st w) = Some R →
  valid R = true →
  run w (save_clicks n)
  = Some (mkWorld (st w) (dom w) (validate_inflight w) (save_inflight w + n),
          replicate n (Post ("http://localhost:8000/save/" +:+ dataset (st w))
                         (JsonPreviews (previews R)))).
Proof.
  intros HR Hv. revert w HR. induction n as [|n IH]; intros w HR.
  - simpl. destruct w. simpl. by rewrite Nat.add_0_r.
  - change (save_clicks (S n)) with (ClickSave :: save_clicks n).
    cbn [run]. rewrite (click_save_step w R HR Hv).
    rewrite (IH (mkWorld (st w) (dom w) (validate_inflight w) (S (save_inflight w))) HR).
    simpl. do 3 f_equal. lia.
Qed.

Lemma save_clicks_all_sent_witness :
  run (reviewing_world (risk_report true ∅)) (save_clicks 3)
  = Some (mkWorld (st (reviewing_world (risk_report true ∅))) risk_dom 0 3,
          replicate 3 (Post "http://localhost:8000/save/Risk"
                         (JsonPreviews (previews (risk_report true ∅))))).
Proof.
  apply (save_clicks_all_sent (reviewing_world (risk_report true ∅))
           (risk_report true ∅) 3); reflexivity.
Defined.

(** X6: SAVE addresses the selector as it is at the click, not as it was
    when the report was validated: after the selector is changed to any
    option of the [select], the empty one included, the previews of the
    report on screen are posted under the new value. *)
Theorem save_uses_current_selector (w : World) (R : Report) (v : string) :
  result (st w) = Some R →
  valid R = true →
  v ∈ dataset_options →
  run w [SelectDataset v; ClickSave]
  = Some (mkWorld (setDataset v (st w)) (dom w) (validate_inflight w) (S (save_inflight w)),
          [Post ("http://localhost:8000/save/" +:+ v) (JsonPreviews (previews R))]).
Proof.
  intros HR Hv Hin. cbn [run].
  assert (step w (SelectDataset v)
          = Some (mkWorld (setDataset v (st w)) (dom w) (validate_inflight w)
                    (save_inflight w), [])) as ->.
  { simpl. by rewrite (bool_decide_eq_true_2 _ Hin). }
  by rewrite (click_save_step
                (mkWorld (setDataset v (st w)) (dom w) (validate_inflight w) (save_inflight w))
                R HR Hv).
Qed.

Lemma save_uses_current_selector_witness :
  run (reviewing_world (risk_report true ∅)) [SelectDataset ""; ClickSave]
  = Some (mkWorld (setDataset "" (st (reviewing_world (risk_report true ∅)))) risk_dom 0 1,
          [Post "http://localhost:8000/save/" (JsonPreviews [("risk", [risk_row])])]).
Proof.
  apply (save_uses_current_selector (reviewing_world (risk_report true ∅))
           (risk_report true ∅) ""); [reflexivity | reflexivity |].
  apply list_elem_of_here.
Defined.

(** ** The report is replaced as a whole *)

(** X8: an event leaves the report as it is, drops it, or replaces it by
    the data of a resolved validate call. It is dropped only by a click on
    the validate button, by a resolved save and by CLEAR; no event edits a
    report in place or attaches one that did not come from the service. *)
Theorem report_lifecycle (w w' : World) (e : Event) (eff : list Effect) :
  step w e = Some (w', eff) →
  result (st w') = result (st w)
  ∨ (result (st w') = None ∧ (e = ClickValidate ∨ e = SaveResolved ∨ e = ClickClear))
  ∨ (∃ data : Report, e = ValidateResolved data ∧ result (st w') = Some data).
Proof.
  intros Hstep. destruct w as [[d f r l b sv sp] dm vi si].
  destruct e; simpl in Hstep;
    unfold click_validate, handleValidate, handleSave in Hstep; simpl in Hstep;
    repeat case_match; simplify_eq; simpl; eauto 6.
Qed.

Lemma report_lifecycle_witness :
  result (st (reviewing_world (risk_report true ∅))) = result (st validating_world)
  ∨ (result (st (reviewing_world (risk_report true ∅))) = None
     ∧ (ValidateResolved (risk_report true ∅) = ClickValidate
        ∨ ValidateResolved (risk_report true ∅) = SaveResolved
        ∨ ValidateResolved (risk_report true ∅) = ClickClear))
  ∨ (∃ data : Report,
       ValidateResolved (risk_report true ∅) = ValidateResolved data
       ∧ result (st (reviewing_world (risk_report true ∅))) = Some data).
Proof.
  apply (report_lifecycle validating_world (reviewing_world (risk_report true ∅))
           (ValidateResolved (risk_report true ∅)) []).
  reflexivity.
Defined.

(** ** The health poll *)

(** X10: only the health poll writes [backendStatus]: a poll that succeeds
    sets it to ready, one that fails to error, and every other event leaves
    it alone; so the status is never checking again once a poll has
    settled. A poll touches nothing else: selector, file, report,
    outstanding calls and the DOM are as before, and it raises no alert. A
    failed poll disables the validate button at once. *)
Theorem health_poll_frame (w w' : World) (e : Event) (eff : list Effect) :
  step w e = Some (w', eff) →
  backendStatus (st w')
  = match e with
    | HealthOk => ready
    | HealthErr => error
    | _ => backendStatus (st w)
    end
  ∧ (backendStatus (st w') = checking → backendStatus (st w) = checking)
  ∧ (e = HealthOk ∨ e = HealthErr →
       eff = []
       ∧ w' = mkWorld (setBackendStatus (backendStatus (st w')) (st w)) (dom w)
                (validate_inflight w) (save_inflight w))
  ∧ (e = HealthErr → validate_disabled (st w') = true).
Proof.
  intros Hstep. destruct w as [[d f r l b sv sp] dm vi si].
  destruct e; simpl in Hstep;
    unfold click_validate, handleValidate, handleSave in Hstep; simpl in Hstep;
    repeat case_match; simplify_eq; simpl;
    (split_and!; [done | done | intros [? | ?]; by simplify_eq | try done]).
  intros _. unfold validate_disabled. simpl. by rewrite !orb_true_r.
Qed.

Lemma health_poll_frame_witness :
  backendStatus (setBackendStatus error (st selecting_world)) = error
  ∧ (backendStatus (setBackendStatus error (st selecting_world)) = checking →
     backendStatus (st selecting_world) = checking)
  ∧ (HealthErr = HealthOk ∨ HealthErr = HealthErr →
       @nil Effect = []
       ∧ mkWorld (setBackendStatus error (st selecting_world)) risk_dom 0 0
         = mkWorld (setBackendStatus error (st selecting_world)) risk_dom 0 0)
  ∧ (HealthErr = HealthErr →
     validate_disabled (setBackendStatus error (st selecting_world)) = true).
Proof.
  apply (health_poll_frame selecting_world
           (mkWorld (setBackendStatus error (st selecting_world)) risk_dom 0 0)
           HealthErr []).
  reflexivity.
Defined.

(** ** The label of the file input *)

(** X11: in every reachable world the label of the file input names the
    file that is held. The converse fails after a save: a resolved save
    drops the file but does not write the label, which goes on naming the
    file that was saved. *)
Theorem label_names_held_file (w : World) :
  reachable w →
  (∀ f : File, file (st w) = Some f → label_text (dom w) = file_name f +:+ " selected")
  ∧ (∀ f : File, file (st w) = Some f → save_inflight w ≠ 0%nat →
       ∃ w', step w SaveResolved = Some (w', [Alert "Data saved to SQLite database!"])
             ∧ file (st w') = None
             ∧ label_text (dom w') = file_name f +:+ " selected").
Proof.
  intros [_ Hlabel]%reachable_inputs_inv. split; [done|].
  intros f Hf Hn. destruct w as [s dm vi [|si]]; [done|].
  eexists. split; [done|]. split; [done|]. by apply Hlabel.
Qed.

Lemma label_names_held_file_witness :
  ∃ w', step (saving_world (risk_report true ∅)) SaveResolved
        = Some (w', [Alert "Data saved to SQLite database!"])
        ∧ file (st w') = None
        ∧ label_text (dom w') = file_name risk_file +:+ " selected".
Proof.
  apply (proj2 (label_names_held_file (saving_world (risk_report true ∅))
                  (saving_reachable (risk_report true ∅) eq_refl))
           risk_file); [reflexivity | discriminate].
Defined.

(** ** Toggles and clear *)

(** X13: while a report is shown, a second click on a section toggle
    undoes the first, the two toggles commute, and a toggle changes its own
    flag only: the report, the inputs and the calls outstanding are
    untouched and nothing is sent. *)
Theorem toggles_compose (w : World) :
  is_Some (result (st w)) →
  run w [ToggleValidation; ToggleValidation] = Some (w, [])
  ∧ run w [TogglePreview; TogglePreview] = Some (w, [])
  ∧ run w [ToggleValidation; TogglePreview] = run w [TogglePreview; ToggleValidation]
  ∧ step w ToggleValidation
    = Some (mkWorld (setShowValidation (negb (showValidation (st w))) (st w)) (dom w)
              (validate_inflight w) (save_inflight w), [])
  ∧ step w TogglePreview
    = Some (mkWorld (setShowPreview (negb (showPreview (st w))) (st w)) (dom w)
              (validate_inflight w) (save_inflight w), []).
Proof.
  intros [R HR]. destruct w as [[d f r l b sv sp] dm vi si]. simpl in *. subst r.
  unfold results_rendered, setShowValidation, setShowPreview. simpl.
  rewrite !negb_involutive. by split_and!.
Qed.

Lemma toggles_compose_witness :
  run (reviewing_world (risk_report true ∅)) [ToggleValidation; ToggleValidation]
  = Some (reviewing_world (risk_report true ∅), []).
Proof.
  apply (proj1 (toggles_compose (reviewing_world (risk_report true ∅))
                  (ex_intro _ (risk_report true ∅) eq_refl))).
Defined.

(** X14: CLEAR is mounted exactly while a report is shown. Clicked in a
    reachable world it sends nothing and raises no alert, leaves the page
    Idle with both sections open and the file input reset, and so disables
    the validate button; save calls still outstanding stay outstanding. *)
Theorem clear_click (w : World) :
  reachable w →
  (step w ClickClear = None ↔ result (st w) = None)
  ∧ (is_Some (result (st w)) →
       ∃ w', step w ClickClear = Some (w', [])
             ∧ phase (st w') = Idle
             ∧ cleared (st w')
             ∧ showValidation (st w') = true ∧ showPreview (st w') = true
             ∧ dom w' = initial_dom
             ∧ validate_disabled (st w') = true
             ∧ backendStatus (st w') = backendStatus (st w)
             ∧ validate_inflight w' = 0%nat
             ∧ save_inflight w' = save_inflight w).
Proof.
  intros [Hcount Hres]%reachable_inv.
  destruct w as [[d f r l b sv sp] dm vi si]. simpl in *.
  unfold results_rendered. simpl. split.
  - destruct r; simpl; [by split | done].
  - intros [R ->]. destruct l; [by specialize (Hres eq_refl)|]. subst vi.
    simpl. eexists. split; [done|]. by split_and!.
Qed.

Lemma clear_click_witness :
  ∃ w', step (saving_world (risk_report true ∅)) ClickClear = Some (w', [])
        ∧ phase (st w') = Idle
        ∧ cleared (st w')
        ∧ showValidation (st w') = true ∧ showPreview (st w') = true
        ∧ dom w' = initial_dom
        ∧ validate_disabled (st w') = true
        ∧ backendStatus (st w') = ready
        ∧ validate_inflight w' = 0%nat
        ∧ save_inflight w' = 1%nat.
Proof.
  apply (proj2 (clear_click (saving_world (risk_report true ∅))
                  (saving_reachable (risk_report true ∅) eq_refl))).
  exists (risk_report true ∅). reflexivity.
Defined.

(** ** Table titles *)

Lemma app_empty (s : string) : "" +:+ s = s.
Proof. reflexivity. Qed.

Lemma app_String (c : Ascii.ascii) (s t : string) : String c s +:+ t = String c (s +:+ t).
Proof. reflexivity. Qed.

Lemma strip_prefix_Some (p s rest : string) :
  strip_prefix p s = Some rest ↔ s = p +:+ rest.
Proof.
  revert s. induction p as [|a p IH]; intros s.
  - rewrite app_empty. simpl. split; congruence.
  - rewrite app_String. destruct s as [|b s]; simpl.
    + split; discriminate.
    + destruct (Ascii.eqb_spec a b) as [->|Hne].
      * rewrite IH. split; congruence.
      * split; [discriminate | congruence].
Qed.

Lemma remove_first_here (p s rest : string) :
  strip_prefix p s = Some rest → remove_first p s = rest.
Proof. intros H. destruct s; simpl; by rewrite H. Qed.

Lemma remove_first_later (p : string) (c : Ascii.ascii) (s : string) :
  strip_prefix p (String c s) = None →
  remove_first p (String c s) = String c (remove_first p s).
Proof. intros H. simpl. by rewrite H. Qed.

Lemma remove_first_prefix (p rest : string) : remove_first p (p +:+ rest) = rest.
Proof. apply remove_first_here. by apply strip_prefix_Some. Qed.

(** [remove_first] cuts out the leftmost occurrence of the pattern, and
    nothing when there is none. *)
Lemma remove_first_leftmost (p s : string) :
  ((∀ a b : string, s ≠ a +:+ p +:+ b) ∧ remove_first p s = s)
  ∨ (∃ a b : string,
       s = a +:+ p +:+ b ∧ remove_first p s = a +:+ b
       ∧ ∀ a' b' : string, s = a' +:+ p +:+ b' → (String.length a ≤ String.length a')%nat).
Proof.
  induction s as [|c s IH].
  - destruct (strip_prefix p "") as [rest|] eqn:Hp.
    + right. exists "", rest. rewrite !app_empty.
      split; [by apply strip_prefix_Some|].
      split; [by apply remove_first_here | simpl; lia].
    + left. split; [|by destruct p].
      intros [|c' a'] b Heq; [|by rewrite app_String in Heq].
      rewrite app_empty in Heq. apply strip_prefix_Some in Heq. congruence.
  - destruct (strip_prefix p (String c s)) as [rest|] eqn:Hp.
    + right. exists "", rest. rewrite !app_empty.
      split; [by apply strip_prefix_Some|].
      split; [by apply remove_first_here | simpl; lia].
    + rewrite (remove_first_later p c s Hp).
      destruct IH as [[Hno Hid] | (a & b & Hs & Hr & Hmin)].
      * left. split; [|by rewrite Hid].
        intros [|c' a'] b' Heq.
        -- rewrite app_empty in Heq. apply strip_prefix_Some in Heq. congruence.
        -- rewrite app_String in Heq. injection Heq as _ Heq. by eapply Hno.
      * right. exists (String c a), b. rewrite !app_String.
        split; [congruence|]. split; [by rewrite Hr|].
        intros [|c' a'] b' Heq.
        -- rewrite app_empty in Heq. apply strip_prefix_Some in Heq. congruence.
        -- rewrite app_String in Heq. injection Heq as _ Heq.
           apply Hmin in Heq. simpl. lia.
Qed.

(** X15: the heading of a table is the upper-cased table name with the
    leftmost occurrence of "pnl_" cut out, wherever in the name it stands;
    a name without "pnl_" is upper-cased as it is. Later occurrences are
    kept. *)
Theorem table_title_cuts_leftmost (toUpperCase : string → string) (tableName : string) :
  ((∀ a b : string, tableName ≠ a +:+ "pnl_" +:+ b)
   ∧ table_title toUpperCase tableName = toUpperCase tableName)
  ∨ (∃ a b : string,
       tableName = a +:+ "pnl_" +:+ b
       ∧ table_title toUpperCase tableName = toUpperCase (a +:+ b)
       ∧ ∀ a' b' : string, tableName = a' +:+ "pnl_" +:+ b' →
           (String.length a ≤ String.length a')%nat).
Proof.
  unfold table_title.
  destruct (remove_first_leftmost "pnl_" tableName) as [[Hno ->] | (a & b & Hs & -> & Hmin)].
  - by left.
  - right. by exists a, b.
Qed.

(** X16: a leading "pnl_" is dropped from the heading, once; so a table
    named "pnl_" followed by [b] and a table named [b], when [b] holds no
    "pnl_", are shown under the same heading. *)
Theorem table_title_prefix (toUpperCase : string → string) (b : string) :
  table_title toUpperCase ("pnl_" +:+ b) = toUpperCase b
  ∧ table_title toUpperCase ("pnl_pnl_" +:+ b) = toUpperCase ("pnl_" +:+ b)
  ∧ ((∀ a c : string, b ≠ a +:+ "pnl_" +:+ c) →
     table_title toUpperCase ("pnl_" +:+ b) = table_title toUpperCase b).
Proof.
  unfold table_title. split_and!.
  - by rewrite remove_first_prefix.
  - change ("pnl_pnl_" +:+ b) with ("pnl_" +:+ ("pnl_" +:+ b)).
    by rewrite remove_first_prefix.
  - intros Hno. rewrite remove_first_prefix.
    destruct (remove_first_leftmost "pnl_" b) as [[_ ->] | (a & c & Hs & _)]; [done|].
    by destruct (Hno a c).
Qed.

Lemma length_app (s t : string) :
  String.length (s +:+ t) = (String.length s + String.length t)%nat.
Proof.
  induction s as [|c s IH]; [done|]. rewrite app_String. simpl. by rewrite IH.
Qed.

Lemma risk_without_pnl (a c : string) : "risk" ≠ a +:+ "pnl_" +:+ c.
Proof.
  intros Heq. destruct a as [|x a]; [discriminate Heq|].
  apply (f_equal String.length) in Heq.
  rewrite !length_app in Heq. simpl in Heq. lia.
Qed.

Lemma table_title_prefix_witness :
  table_title id "pnl_risk" = table_title id "risk".
Proof.
  apply (proj2 (proj2 (table_title_prefix id "risk"))).
  apply risk_without_pnl.
Defined.

Example remove_first_examples :
  remove_first "pnl_" "pnl_risk" = "risk"
  ∧ remove_first "pnl_" "desk_pnl_daily" = "desk_daily"
  ∧ remove_first "pnl_" "pnl_pnl_x" = "pnl_x"
  ∧ remove_first "pnl_" "pnl" = "pnl"
  ∧ remove_first "pnl_" "PNL_risk" = "PNL_risk"
  ∧ remove_first "pnl_" "" = "".
Proof. repeat split. Qed.

(** * The page on raw service data: properties *)

(** ** Rendering with the lookup of line 267 *)

Lemma mapM_total {A B : Type} (f : A → option B) (g : A → B) (l : list A) :
  (∀ x, x ∈ l → f x = Some (g x)) → mapM f l = Some (g <$> l).
Proof.
  intros H. apply mapM_Some_2. induction l as [|x l IH]; simpl; constructor.
  - apply H. by left.
  - apply IH. intros y Hy. apply H. by right.
Qed.

Lemma errors_js_Arr (R : Report) (T : string) (errs : list Coord) :
  errors_js R T = Arr errs → errs = errors_for R T.
Proof.
  unfold errors_js, errors_for. destruct (error_locations R !! T); simpl.
  - congruence.
  - case_bool_decide; congruence.
Qed.

Lemma errors_js_NotArray (R : Report) (T : string) :
  errors_js R T = NotArray ↔ error_locations R !! T = None ∧ T ∈ object_prototype_names.
Proof.
  unfold errors_js. destruct (error_locations R !! T); simpl.
  - split; [discriminate | by intros [? _]].
  - case_bool_decide; split; try done. by intros [_ ?].
Qed.

Lemma render_row_js_Arr (errs : list Coord) (i : nat) (row : Row) :
  render_row_js (Arr errs) i row = Some (render_row errs i row).
Proof.
  unfold render_row_js, render_row. apply mapM_total. by intros [col v] _.
Qed.

Lemma render_row_js_NotArray (i : nat) (row : Row) :
  render_row_js NotArray i row = if decide (row = []) then Some [] else None.
Proof. destruct row as [|[col v] row]; reflexivity. Qed.

(** A table whose coordinates are an array renders, as [render_table] says. *)
Lemma render_table_js_Arr (R : Report) (T : string) (rows : list Row) (errs : list Coord) :
  errors_js R T = Arr errs →
  render_table_js R T rows = Some (render_table R T rows).
Proof.
  intros Hjs. unfold render_table_js, render_table. rewrite Hjs.
  rewrite <- (errors_js_Arr R T errs Hjs).
  rewrite (mapM_total _ (λ ir : nat * Row, render_row errs ir.1 ir.2)).
  - simpl. do 2 f_equal. rewrite fmap_imap. by apply imap_ext.
  - intros [i row] _. apply render_row_js_Arr.
Qed.

(** A table whose name resolves to an inherited property raises as soon as
    one of its first 20 rows has a cell. *)
Lemma render_table_js_NotArray (R : Report) (T : string) (rows : list Row) :
  errors_js R T = NotArray →
  (∃ (i : nat) (row : Row), (i < cap)%nat ∧ rows !! i = Some row ∧ row ≠ []) →
  render_table_js R T rows = None.
Proof.
  intros Hjs (i & row & Hi & Hrow & Hne). unfold render_table_js. rewrite Hjs.
  assert (mapM (λ ir : nat * Row, render_row_js NotArray ir.1 ir.2)
            (imap pair (take cap rows)) = None) as ->; [|done].
  apply mapM_None. apply Exists_exists. exists (i, row). split.
  - apply list_elem_of_lookup. exists i.
    by rewrite list_lookup_imap, lookup_take_lt, Hrow.
  - simpl. rewrite render_row_js_NotArray. by case_decide.
Qed.

(** C1, at the code: [result.error_locations[T] || []] is an array when
    [T] has an own entry, and when [T] is no inherited property name; then
    the table renders and a cell at row [i], column [c] is flagged iff
    [(i, c)] is among the coordinates. But for a table with no entry whose
    name is a property every object inherits, the lookup yields that
    property, and the first cell raises a [TypeError] instead of staying
    unflagged. *)
Theorem inherited_table_name_raises (R : Report) (T : string) (rows : list Row) :
  (errors_js R T = NotArray
   ↔ error_locations R !! T = None ∧ T ∈ object_prototype_names)
  ∧ (errors_js R T = NotArray →
     (∃ (i : nat) (row : Row), (i < 20)%nat ∧ rows !! i = Some row ∧ row ≠ []) →
     render_table_js R T rows = None)
  ∧ (∀ errs : list Coord, errors_js R T = Arr errs →
     ∃ tv : TableView,
       render_table_js R T rows = Some tv
       ∧ (∀ (i j : nat) (cells : list Cell) (cell : Cell),
            tv_body tv !! i = Some cells → cells !! j = Some cell →
            cell_hasError cell = true ↔ (Z.of_nat i, cell_col cell) ∈ errs)
       ∧ (∀ (r : Z) (c : string),
            (r, c) ∈ errs →
            (r < 0 ∨ Z.of_nat (length rows) ≤ r
             ∨ ∃ row, rows !! Z.to_nat r = Some row ∧ c ∉ row.*1)%Z →
            ∀ (i j : nat) (cells : list Cell) (cell : Cell),
              tv_body tv !! i = Some cells → cells !! j = Some cell →
              ¬ (Z.of_nat i = r ∧ cell_col cell = c))).
Proof.
  split_and!.
  - apply errors_js_NotArray.
  - apply render_table_js_NotArray.
  - intros errs Hjs. exists (render_table R T rows).
    split; [by eapply render_table_js_Arr|].
    rewrite (errors_js_Arr R T errs Hjs).
    destruct (cell_flagged_iff_error_location R T rows) as (Hflag & Hout & _).
    split; [exact Hflag | exact Hout].
Qed.

(** The failing input: a preview table named "constructor", one row, and no
    coordinates for it. *)
Lemma inherited_table_name_raises_witness :
  error_locations constructor_report !! "constructor" = None
  ∧ render_table_js constructor_report "constructor" [[("id", JNum 1)]] = None
  ∧ render_previews_js constructor_report = None
  ∧ render_js (setResult (Some constructor_report) selecting_state) = None.
Proof.
  split; [reflexivity|]. split; [|split; reflexivity].
  apply (proj1 (proj2 (inherited_table_name_raises constructor_report "constructor"
                         [[("id", JNum 1)]]))); [reflexivity|].
  exists 0%nat, [("id", JNum 1)]. split; [lia|]. split; [reflexivity | discriminate].
Defined.

(** The same table with an own, empty entry renders. *)
Example own_entry_shadows_inherited :
  render_table_js
    {| valid := true; check_results := []; previews := [];
       error_locations := {[ "constructor" := [] ]} |}
    "constructor" [[("id", JNum 1)]]
  = Some {| tv_header := ["id"]; tv_body := [[mkCell "id" "1" false]]; tv_summary := None |}.
Proof. reflexivity. Qed.

(** X1: when the lookup of line 267 yields an array for both reports, the
    rendered table depends on the two arrays only through the set of
    coordinates whose row index is one of the rendered rows 0..19. Order
    and repetition of coordinates, coordinates of rows 20 and later and of
    negative rows change nothing on screen. *)
Theorem render_table_js_visible_errors (R R' : Report) (T : string) (rows : list Row)
    (errs errs' : list Coord) :
  errors_js R T = Arr errs →
  errors_js R' T = Arr errs' →
  (∀ (i : nat) (c : string), (i < 20)%nat →
     (Z.of_nat i, c) ∈ errs ↔ (Z.of_nat i, c) ∈ errs') →
  render_table_js R T rows = render_table_js R' T rows
  ∧ is_Some (render_table_js R T rows).
Proof.
  intros Hjs Hjs' Hsame.
  rewrite (render_table_js_Arr R T rows errs Hjs), (render_table_js_Arr R' T rows errs' Hjs').
  split; [|done]. f_equal. apply render_table_visible_errors.
  by rewrite <- (errors_js_Arr R T errs Hjs), <- (errors_js_Arr R' T errs' Hjs').
Qed.

Lemma render_table_js_visible_errors_witness :
  render_table_js (risk_report false noisy_errors) "risk" rows25
  = render_table_js (risk_report false {[ "risk" := [(0%Z, "amount")] ]}) "risk" rows25
  ∧ is_Some (render_table_js (risk_report false noisy_errors) "risk" rows25).
Proof.
  apply (render_table_js_visible_errors
           (risk_report false noisy_errors)
           (risk_report false {[ "risk" := [(0%Z, "amount")] ]}) "risk" rows25
           [(25%Z, "id"); (0%Z, "amount"); ((-1)%Z, "id"); (0%Z, "amount")]
           [(0%Z, "amount")]); [reflexivity | reflexivity |].
  apply noisy_errors_visible.
Defined.

(** ** The [catch] block on raw errors *)







Example catch_alert_examples :
  catch_alert err500_null = (ServiceFault, None)
  ∧ catch_alert {| raw_response := Some {| raw_status := 500;
                                           raw_data := JsonObj [("detail", JsonNum "7")] |};
                   raw_code := None; raw_message := "m" |}
    = (ServiceFault, Some "Server error: 7")
  ∧ catch_alert {| raw_response := Some {| raw_status := 500;
                                           raw_data := JsonStr "Internal Server Error" |};
                   raw_code := None; raw_message := "m" |}
    = (ServiceFault, Some "Server error: Validation crashed. Check backend logs.")
  ∧ catch_alert {| raw_response := Some {| raw_status := 400; raw_data := JsonNull |};
                   raw_code := None; raw_message := "Request failed with status code 400" |}
    = (Rejected, Some "Validation failed: Request failed with status code 400")
  ∧ catch_alert {| raw_response := Some {| raw_status := 400;
                                           raw_data := JsonObj [("detail",
                                                        JsonObj [("toString", JsonNum "1")])] |};
                   raw_code := None; raw_message := "m" |}
    = (Rejected, None)
  ∧ catch_alert raw_network
    = (Unreachable,
       Some "Network error — backend may be down. Check if uvicorn is running on port 8000.")
  ∧ catch_alert {| raw_response := None; raw_code := Some "ECONNABORTED";
                   raw_message := "timeout of 1000ms exceeded" |}
    = (Rejected, Some "Validation failed: timeout of 1000ms exceeded").
Proof. repeat split. Qed.

Lemma pretty_zero (n : Z) : pretty n = "0" ↔ n = 0%Z.
Proof.
  split; [|by intros ->].
  change "0" with (pretty 0%Z). apply (inj pretty).
Qed.

Lemma detail_text_agrees (v : JsVal) (fallback : string) :
  json_to_string (detail_or (read_detail_chained (body_of v)) fallback)
  = Some (template (or_else v (JStr fallback))).
Proof.
  destruct v as [| |[]|n|s]; try reflexivity.
  - unfold read_detail_chained, detail_or, or_else. simpl.
    destruct (Z.eqb_spec n 0) as [->|Hn]; [done|].
    assert (String.eqb (pretty n) "0" = false) as ->; [|done].
    apply String.eqb_neq. by rewrite pretty_zero.
  - unfold read_detail_chained, detail_or, or_else. simpl.
    by destruct (String.eqb s "").
Qed.

(** On an error response whose body is an object with a scalar [detail],
    the [catch] block always alerts, and what it alerts is what
    [validate_failure] says. *)
Lemma catch_alert_raw_of (err : AxiosError) :
  catch_alert (raw_of err) = ((validate_failure err).1, Some (validate_failure err).2).
Proof.
  unfold catch_alert, validate_failure, status_is_500, code_is_network, response_detail.
  destruct err as [[[st' dt]|] cd msg]; simpl.
  - destruct (st' =? 500)%Z.
    + simpl. f_equal.
      pose proof (detail_text_agrees dt "Validation crashed. Check backend logs.") as H.
      unfold read_detail_chained in H.
      assert (read_detail (body_of dt) = Some (default None (read_detail (body_of dt)))) as ->.
      { by destruct dt. }
      simpl. by rewrite H.
    + destruct cd as [c|]; simpl.
      * destruct (String.eqb_spec c "ERR_NETWORK") as [->|Hc];
          try case_bool_decide; simplify_eq; simpl; try done.
        by rewrite detail_text_agrees.
      * try case_bool_decide; simplify_eq; simpl. by rewrite detail_text_agrees.
  - destruct cd as [c|]; simpl.
    + destruct (String.eqb_spec c "ERR_NETWORK") as [->|Hc];
        try case_bool_decide; simplify_eq; simpl; done.
    + by try case_bool_decide.
Qed.

(** ** The event loop on raw data *)

Lemma render_js_None (s : State) :
  render_js s = None
  ↔ ∃ R, result s = Some R ∧ showPreview s = true ∧ render_previews_js R = None.
Proof.
  unfold render_js. destruct (result s) as [R|]; simpl.
  - destruct (showPreview s); simpl.
    + destruct (render_previews_js R) eqn:Hp; simpl.
      * split; [done|]. intros (R' & [= <-] & _ & ?). congruence.
      * split; [eauto|done].
    + split; [done|]. by intros (R' & _ & ? & _).
  - split; [done|]. by intros (R' & ? & _).
Qed.

Lemma render_js_Some (s : State) :
  (∀ R, result s = Some R → is_Some (render_previews_js R)) → is_Some (render_js s).
Proof.
  intros H. destruct (render_js s) eqn:Hr; [done|].
  apply render_js_None in Hr as (R & HR & _ & Hnone).
  destruct (H R HR) as [? ?]. congruence.
Qed.

Lemma inv_js_init : inv_js initial_js.
Proof. unfold inv_js. simpl. split_and!; (lia || done). Qed.

(** The part of the invariant that concerns the counters is kept by every
    event of the first model. *)
Lemma counters_step (i i' : World) (e : Event) (eff : list Effect) :
  (validate_inflight i ≤ if loading (st i) then 1 else 0)%nat →
  (loading (st i) = true → result (st i) = None) →
  step i e = Some (i', eff) →
  (validate_inflight i' ≤ if loading (st i') then 1 else 0)%nat
  ∧ (loading (st i') = true → result (st i') = None)
  ∧ (∀ R, result (st i') = Some R → result (st i) = Some R ∨ e = ValidateResolved R).
Proof.
  destruct i as [[d f r l b sv sp] dm vi si]. simpl. intros Hcount Hres Hstep.
  destruct e; simpl in Hstep;
    unfold click_validate, validate_disabled, handleValidate, save_rendered,
      results_rendered, handleSave in Hstep; simpl in Hstep;
    repeat case_match; simplify_eq; simpl in *;
    try change (requests []) with 0%nat in *;
    try change (requests [Post _ _]) with 1%nat in *;
    try change (requests [Alert _]) with 0%nat in *;
    (split_and!;
     [ first [lia | done | destruct l; simpl in *; (lia || done)]
     | done || (intros ?; by auto)
     | first [by eauto | intros R' [= <-]; by right] ]).
Qed.

Local Ltac inv_side :=
  simpl; try done; try lia; auto;
  try (intros _; left; by auto);
  try (intros _; right; by auto);
  try (intros _; right; by intros ? [=]);
  try (by intros _ ? [=]).

Lemma inv_js_step (w w' : WorldJs) (e : EventJs) (eff : list EffectJs) :
  inv_js w → step_js w e = Some (w', eff) → inv_js w'.
Proof.
  intros (Hcount & Hres & Hok & Hgone) Hstep.
  assert (∀ (i' : World) (h : nat),
            (validate_inflight i' ≤ if loading (st i') then 1 else 0)%nat →
            (loading (st i') = true → result (st i') = None) →
            (gone w = true → validate_inflight i' = 0%nat) →
            (gone w = false → validate_inflight i' = 0%nat
                              ∨ ∀ R, result (st i') = Some R → is_Some (render_previews_js R)) →
            (gone w = false →
               (∀ R, result (st i') = Some R → showPreview (st i') = false →
                     is_Some (render_previews_js R))) →
            inv_js (rendered w i' h)) as Hrendered.
  { intros i' h H1 H2 H3 H4 H5. unfold inv_js, rendered. simpl. split_and!; try done.
    - intros Hg. apply orb_false_iff in Hg as [Hg Hr].
      apply negb_false_iff, bool_decide_eq_true in Hr.
      intros R HR. destruct (showPreview (st i')) eqn:Hsp; [|by apply H5].
      destruct (render_previews_js R) eqn:Hp; [done|].
      assert (render_js (st i') = None) as Hn by (apply render_js_None; eauto).
      rewrite Hn in Hr. by destruct Hr.
    - intros Hg. apply orb_true_iff in Hg as [Hg | Hr]; [by apply H3|].
      destruct (gone w) eqn:Hg; [by apply H3|].
      destruct (H4 eq_refl) as [? | Hall]; [done|].
      apply negb_true_iff, bool_decide_eq_false in Hr.
      destruct Hr. by apply render_js_Some. }
  destruct w as [i h g]. simpl in *.
  destruct e; simpl in Hstep.
  - destruct g; simplify_eq. by split_and!.
  - destruct h as [|n]; simplify_eq. unfold update; simpl.
    apply Hrendered; destruct g; inv_side.
  - destruct h as [|n]; simplify_eq. unfold update; simpl.
    apply Hrendered; destruct g; inv_side.
  - destruct g; simpl in Hstep; [done|].
    destruct (is_user_event e) eqn:Hu; simpl in Hstep; [|done].
    destruct (step i e) as [[i' eff']|] eqn:Hs; simplify_eq.
    destruct (counters_step i i' e eff' Hcount Hres Hs) as (H1 & H2 & H3).
    apply Hrendered; simpl; try done.
    + intros _. right. intros R HR.
      destruct (H3 R HR) as [Hsame | He]; [by apply Hok | by subst e].
    + intros _ R HR _.
      destruct (H3 R HR) as [Hsame | He]; [by apply Hok | by subst e].
  - destruct (validate_inflight i) as [|n] eqn:Hn; simplify_eq.
    destruct g; [by specialize (Hgone eq_refl)|].
    assert (loading (st i) = true ∧ n = 0%nat) as [Hl ->].
    { destruct (loading (st i)); split; (done || lia). }
    unfold update; simpl. apply Hrendered; inv_side.
  - destruct (validate_inflight i) as [|n] eqn:Hn; simplify_eq.
    destruct g; [by specialize (Hgone eq_refl)|].
    assert (loading (st i) = true ∧ n = 0%nat) as [Hl ->].
    { destruct (loading (st i)); split; (done || lia). }
    specialize (Hres Hl).
    unfold update, handleValidate_rejected_js; simpl.
    destruct (catch_alert err).2; simpl; apply Hrendered; simpl;
      rewrite ?Hl, ?Hres; inv_side.
  - destruct (save_inflight i) as [|n] eqn:Hn; simplify_eq.
    unfold update; simpl. apply Hrendered; destruct g; inv_side.
  - destruct (save_inflight i) as [|n] eqn:Hn; simplify_eq.
    unfold update; simpl. apply Hrendered; destruct g; inv_side.
Qed.

Lemma reachable_js_inv (w : WorldJs) : reachable_js w → inv_js w.
Proof.
  induction 1 as [|w e w' eff _ IH Hstep]; [apply inv_js_init|].
  by eapply inv_js_step.
Qed.

Lemma render_table_js_None (R : Report) (T : string) (rows : list Row) :
  render_table_js R T rows = None
  ↔ errors_js R T = NotArray
    ∧ ∃ (i : nat) (row : Row), (i < cap)%nat ∧ rows !! i = Some row ∧ row ≠ [].
Proof.
  split; [|intros [? ?]; by apply render_table_js_NotArray].
  intros Hnone. destruct (errors_js R T) as [errs|] eqn:Hjs.
  { by rewrite (render_table_js_Arr R T rows errs Hjs) in Hnone. }
  split; [done|]. unfold render_table_js in Hnone. rewrite Hjs in Hnone.
  destruct (mapM (λ ir : nat * Row, render_row_js NotArray ir.1 ir.2)
              (imap pair (take cap rows))) eqn:Hm; [done|].
  apply mapM_None, Exists_exists in Hm as ([i row] & Hin & Hrow).
  apply list_elem_of_lookup in Hin as [k Hk].
  rewrite list_lookup_imap in Hk. apply fmap_Some in Hk as (row' & Hk & [= -> ->]).
  apply lookup_take_Some in Hk as [Hk Hlt].
  exists k, row'. split_and!; [done..|].
  simpl in Hrow. rewrite render_row_js_NotArray in Hrow. by case_decide.
Qed.

(** The preview raises exactly when one of its tables has a name that
    resolves to an inherited property and a cell among its first 20 rows. *)
Lemma render_previews_js_None (R : Report) :
  render_previews_js R = None
  ↔ ∃ (T : string) (rows : list Row),
      (T, rows) ∈ previews R
      ∧ error_locations R !! T = None ∧ T ∈ object_prototype_names
      ∧ ∃ (i : nat) (row : Row), (i < 20)%nat ∧ rows !! i = Some row ∧ row ≠ [].
Proof.
  unfold render_previews_js. rewrite mapM_None, Exists_exists. split.
  - intros ([T rows] & Hin & Hnone). simpl in Hnone.
    destruct (render_table_js R T rows) eqn:Ht; [done|].
    apply render_table_js_None in Ht as [Hjs Hcell].
    apply errors_js_NotArray in Hjs as [? ?]. by exists T, rows.
  - intros (T & rows & Hin & Hown & Hname & Hcell). exists (T, rows). split; [done|].
    simpl. rewrite (render_table_js_NotArray R T rows); [done| |done].
    by apply errors_js_NotArray.
Qed.

(** An action of the operator while [loading] is on and no report is
    attached leaves both so and sends nothing. *)
Lemma user_event_while_loading (i i' : World) (e : Event) (eff : list Effect) :
  is_user_event e = true →
  loading (st i) = true →
  result (st i) = None →
  step i e = Some (i', eff) →
  loading (st i') = true
  ∧ result (st i') = None
  ∧ validate_inflight i' = validate_inflight i
  ∧ requests eff = 0%nat.
Proof.
  destruct i as [[d f r l b sv sp] dm vi si]. simpl. intros Hu -> -> Hstep.
  destruct e; try discriminate Hu; simpl in Hstep;
    unfold click_validate, validate_disabled, save_rendered, results_rendered,
      handleSave in Hstep; simpl in Hstep;
    repeat case_match; simplify_eq; simpl;
    change (requests []) with 0%nat; split_and!; (done || lia).
Qed.

Lemma user_event_posts (i i' : World) (e : Event) (eff : list Effect)
    (url : string) (body : Body) :
  step i e = Some (i', eff) →
  PostJs url body ∈ lift_effects eff →
  (e = ClickValidate
   ∧ validate_disabled (st i) = false
   ∧ url = "http://localhost:8000/validate/" +:+ dataset (st i)
   ∧ ∃ f : File, file (st i) = Some f ∧ body = FormFile f)
  ∨ (e = ClickSave
     ∧ url = "http://localhost:8000/save/" +:+ dataset (st i)
     ∧ ∃ R : Report, result (st i) = Some R ∧ valid R = true
                     ∧ body = JsonPreviews (previews R)).
Proof.
  destruct i as [[d f r l b sv sp] dm vi si]. intros Hstep Hin.
  destruct e; simpl in Hstep;
    unfold click_validate, handleValidate, handleSave, save_rendered in Hstep;
    simpl in Hstep; repeat case_match; simplify_eq; simpl in Hin;
    repeat (apply elem_of_cons in Hin as [Hin | Hin]; [try discriminate|]);
    try (by apply elem_of_nil in Hin); simplify_eq.
  - left. split_and!; try done. eauto.
  - right. split_and!; try done. eauto.
Qed.

Lemma lift_effects_cons (x : Effect) (eff : list Effect) :
  lift_effects (x :: eff) = (lift_effect x ++ lift_effects eff)%list.
Proof. reflexivity. Qed.

Lemma lift_effects_requests (eff : list Effect) :
  length (filter (λ x, is_request x = true) (lift_effects eff)) = requests eff.
Proof.
  unfold requests.
  induction eff as [|x eff IH]; [done|].
  rewrite lift_effects_cons, filter_app, List.length_app, IH.
  destruct x as [m|err|url body].
  - rewrite (filter_cons_False _ (Alert m)); [done | by simpl].
  - rewrite (filter_cons_False _ (ConsoleError err)); [done | by simpl].
  - rewrite (filter_cons_True _ (Post url body)); [done | by simpl].
Qed.

Lemma lift_effects_no_get (eff : list Effect) (url : string) :
  GetJs url ∉ lift_effects eff.
Proof.
  induction eff as [|x eff IH]; [by intros ?%elem_of_nil|].
  rewrite lift_effects_cons. intros [Hx | Hx]%elem_of_app; [|done].
  destruct x; simpl in Hx.
  - apply list_elem_of_singleton in Hx. discriminate.
  - by apply elem_of_nil in Hx.
  - apply list_elem_of_singleton in Hx. discriminate.
Qed.

Lemma step_requests (i i' : World) (e : Event) (eff : list Effect) :
  step i e = Some (i', eff) → (requests eff ≤ 1)%nat.
Proof.
  destruct i as [[d f r l b sv sp] dm vi si]. intros Hstep.
  destruct e; simpl in Hstep;
    unfold click_validate, handleValidate, handleSave in Hstep; simpl in Hstep;
    repeat case_match; simplify_eq; vm_compute; lia.
Qed.

Lemma step_dataset (i i' : World) (e : Event) (eff : list Effect) :
  dataset (st i) ∈ dataset_options → step i e = Some (i', eff) →
  dataset (st i') ∈ dataset_options.
Proof.
  destruct i as [[d f r l b sv sp] dm vi si]. simpl. intros Hd Hstep.
  destruct e; simpl in Hstep;
    unfold click_validate, handleValidate, handleSave in Hstep; simpl in Hstep;
    repeat case_match; simplify_eq; simpl; try done; try (by left).
  match goal with
  | Hv : bool_decide _ = true |- _ => by apply bool_decide_eq_true in Hv
  end.
Qed.

Lemma reachable_js_dataset (w : WorldJs) :
  reachable_js w → dataset (st (inner w)) ∈ dataset_options.
Proof.
  induction 1 as [|w e w' eff _ IH Hstep]; [by left|].
  destruct w as [i h g]. simpl in *.
  destruct e; simpl in Hstep; unfold update in Hstep; simpl in Hstep;
    repeat case_match; simplify_eq; simpl; try done;
    try (by left); try (by eapply step_dataset).
  unfold handleValidate_rejected_js. by destruct (catch_alert err).2.
Qed.

Lemma run_js_reachable (w w' : WorldJs) (es : list EventJs) (eff : list EffectJs) :
  reachable_js w → run_js w es = Some (w', eff) → reachable_js w'.
Proof.
  revert w eff. induction es as [|e es IH]; simpl; intros w eff Hw Hrun.
  - by simplify_eq.
  - destruct (step_js w e) as [[w1 eff1]|] eqn:Hstep; [|done].
    destruct (run_js w1 es) as [[w2 eff2]|] eqn:Hrest; [|done].
    simplify_eq. eapply IH; [|done]. by eapply reachable_js_step.
Qed.

Example raw_run_to_validating :
  run_js initial_js [JHealthOk; JUser (SelectDataset "Risk");
                     JUser (SelectFile (Some risk_file) "C:\fakepath\risk.xlsx")]
  = Some (selecting_js, [])
  ∧ step_js selecting_js (JUser ClickValidate)
    = Some (validating_js,
            [PostJs "http://localhost:8000/validate/Risk" (FormFile risk_file)]).
Proof. split; reflexivity. Qed.

Lemma selecting_js_reachable : reachable_js selecting_js.
Proof.
  eapply run_js_reachable; [apply reachable_js_init|]. apply raw_run_to_validating.
Qed.

Lemma validating_js_reachable : reachable_js validating_js.
Proof.
  eapply reachable_js_step; [apply selecting_js_reachable|].
  apply raw_run_to_validating.
Qed.

(** With [loading] on and no validate call outstanding, no event turns
    [loading] off or sends a validate request. *)
Lemma stuck_step (w w' : WorldJs) (e : EventJs) (eff : list EffectJs) :
  inv_js w →
  loading (st (inner w)) = true →
  validate_inflight (inner w) = 0%nat →
  step_js w e = Some (w', eff) →
  loading (st (inner w')) = true ∧ validate_inflight (inner w') = 0%nat.
Proof.
  intros (_ & Hres & _ & _) Hl Hv Hstep. specialize (Hres Hl).
  destruct w as [i h g]. simpl in *.
  destruct e; simpl in Hstep; unfold update in Hstep; simpl in Hstep;
    rewrite ?Hv in Hstep; repeat case_match; simplify_eq; simpl; try done.
  match goal with
  | Hu : _ || negb (is_user_event _) = false, Hs : step i _ = Some _ |- _ =>
      apply orb_false_iff in Hu as [_ Hu]; apply negb_false_iff in Hu;
      destruct (user_event_while_loading _ _ _ _ Hu Hl Hres Hs) as (? & _ & Hsame & _)
  end.
  split; [done|]. by rewrite Hsame.
Qed.

Lemma stuck_run (es : list EventJs) (w w' : WorldJs) (eff : list EffectJs) :
  inv_js w →
  loading (st (inner w)) = true →
  validate_inflight (inner w) = 0%nat →
  run_js w es = Some (w', eff) →
  loading (st (inner w')) = true ∧ validate_inflight (inner w') = 0%nat.
Proof.
  revert w eff. induction es as [|e es IH]; simpl; intros w eff Hinv Hl Hv Hrun.
  - by simplify_eq.
  - destruct (step_js w e) as [[w1 eff1]|] eqn:Hstep; [|done].
    destruct (run_js w1 es) as [[w2 eff2]|] eqn:Hrest; [|done]. simplify_eq.
    destruct (stuck_step w w1 e eff1 Hinv Hl Hv Hstep) as [Hl1 Hv1].
    eapply IH; [by eapply inv_js_step | done | done | done].
Qed.

(** ** A rejected validate call *)

(** C7, at the code. When the [catch] block shows its alert, the rejection
    of the outstanding validate call leaves no report, the selector and
    the file as they were and [loading] off: the page is back in
    Selecting. When evaluating the alert text raises, as it does for a 500
    whose body is [null] (line 51 reads [err.response.data.detail] where
    line 55 reads [err.response?.data?.detail]), line 58 does not run: no
    alert is shown, no call is outstanding, and [loading] is on and stays
    on whatever happens next, so the button is disabled for good. *)
Theorem rejected_validate_outcomes (w : WorldJs) (err : RawError) :
  reachable_js w →
  gone w = false →
  validate_inflight (inner w) ≠ 0%nat →
  (∀ msg : string, (catch_alert err).2 = Some msg →
     ∃ w', step_js w (JValidateRejected err)
           = Some (w', [ConsoleErrorJs err; AlertJs msg])
           ∧ result (st (inner w')) = None
           ∧ dataset (st (inner w')) = dataset (st (inner w))
           ∧ file (st (inner w')) = file (st (inner w))
           ∧ loading (st (inner w')) = false
           ∧ validate_inflight (inner w') = 0%nat
           ∧ gone w' = false
           ∧ (is_Some (file (st (inner w))) ∨ dataset (st (inner w)) ≠ "" →
              phase (st (inner w')) = Selecting))
  ∧ ((catch_alert err).2 = None →
     ∃ w', step_js w (JValidateRejected err) = Some (w', [ConsoleErrorJs err])
           ∧ st (inner w') = st (inner w)
           ∧ result (st (inner w')) = None
           ∧ loading (st (inner w')) = true
           ∧ phase (st (inner w')) = Validating
           ∧ validate_inflight (inner w') = 0%nat
           ∧ gone w' = false
           ∧ ∀ (es : list EventJs) (w'' : WorldJs) (eff : list EffectJs),
               run_js w' es = Some (w'', eff) →
               loading (st (inner w'')) = true
               ∧ validate_disabled (st (inner w'')) = true).
Proof.
  intros Hw Hg Hn. pose proof (reachable_js_inv w Hw) as Hinv.
  destruct Hinv as (Hcount & Hres & Hok & Hgone').
  assert (loading (st (inner w)) = true ∧ validate_inflight (inner w) = 1%nat) as [Hl Hv].
  { destruct (loading (st (inner w))); split; (done || lia). }
  specialize (Hres Hl).
  assert (is_Some (render_js (st (inner w)))) as Hrender.
  { apply render_js_Some. intros R HR. congruence. }
  assert (is_Some (render_js (setLoading false (st (inner w))))) as Hrender'.
  { apply render_js_Some. intros R HR. simpl in HR. congruence. }
  split.
  - intros msg Hmsg. eexists. split.
    { unfold step_js. rewrite Hv. unfold handleValidate_rejected_js. rewrite Hmsg.
      unfold update. rewrite Hg. reflexivity. }
    unfold rendered. simpl. rewrite Hg. simpl.
    rewrite (bool_decide_eq_true_2 _ Hrender'). split_and!; try done.
    unfold phase. simpl. rewrite Hres. intros [[f ->] | Hd]; [done|].
    apply String.eqb_neq in Hd. rewrite Hd. by rewrite andb_false_r.
  - intros Hnone.
    assert (step_js w (JValidateRejected err)
            = Some (mkWorldJs (mkWorld (st (inner w)) (dom (inner w)) 0 (save_inflight (inner w)))
                      (health_inflight w) false, [ConsoleErrorJs err])) as Hstep.
    { unfold step_js. rewrite Hv. unfold handleValidate_rejected_js. rewrite Hnone.
      unfold update, rendered. rewrite Hg. simpl.
      by rewrite (bool_decide_eq_true_2 _ Hrender). }
    eexists. split; [exact Hstep|]. simpl. split_and!; try done.
    { unfold phase. by rewrite Hl. }
    intros es w'' eff Hrun.
    assert (inv_js (mkWorldJs (mkWorld (st (inner w)) (dom (inner w)) 0
                                 (save_inflight (inner w))) (health_inflight w) false)) as Hinv'.
    { eapply inv_js_step; [|exact Hstep]. by apply reachable_js_inv. }
    destruct (stuck_run es _ w'' eff Hinv' Hl eq_refl Hrun) as [Hl'' _].
    split; [done|]. unfold validate_disabled. by rewrite Hl''.
Qed.

(** The failing input: a validate call is outstanding and the service
    answers 500 with the body [null]. *)
Lemma rejected_validate_outcomes_witness :
  ∃ w', step_js validating_js (JValidateRejected err500_null)
        = Some (w', [ConsoleErrorJs err500_null])
        ∧ st (inner w') = st (inner validating_js)
        ∧ result (st (inner w')) = None
        ∧ loading (st (inner w')) = true
        ∧ phase (st (inner w')) = Validating
        ∧ validate_inflight (inner w') = 0%nat
        ∧ gone w' = false
        ∧ ∀ (es : list EventJs) (w'' : WorldJs) (eff : list EffectJs),
            run_js w' es = Some (w'', eff) →
            loading (st (inner w'')) = true
            ∧ validate_disabled (st (inner w'')) = true.
Proof.
  apply (proj2 (rejected_validate_outcomes validating_js err500_null
                  validating_js_reachable eq_refl ltac:(discriminate))).
  reflexivity.
Defined.

Example null_body_500_run :
  step_js validating_js (JValidateRejected err500_null)
  = Some (stuck_js, [ConsoleErrorJs err500_null])
  ∧ render_js (st (inner stuck_js))
    = Some {| page_status := ready; page_validate_disabled := true;
              page_validate_label := "Validating..."; page_results := None |}
  ∧ step_js stuck_js (JUser ClickValidate) = Some (stuck_js, [])
  ∧ step_js stuck_js (JUser ClickClear) = None
  ∧ step_js validating_js (JValidateRejected raw_network)
    = Some (selecting_js,
            [ConsoleErrorJs raw_network;
             AlertJs "Network error — backend may be down. Check if uvicorn is running on port 8000."]).
Proof. repeat split. Qed.

(** ** While a validate call is outstanding *)

(** X4: in every world the page reaches at most one validate call is
    outstanding. While one is, the mounted page reads "Validating...", its
    button is disabled and the results block is not mounted, so SAVE, CLEAR
    and the two section toggles cannot be clicked. The button reads
    "Validate & Preview" exactly while [loading] is off, and then no
    validate call is outstanding. *)
Theorem validating_page_js (w : WorldJs) :
  reachable_js w →
  gone w = false →
  (validate_inflight (inner w) ≤ 1)%nat
  ∧ (∃ page : Page,
       render_js (st (inner w)) = Some page
       ∧ (validate_inflight (inner w) = 1%nat →
            page_validate_label page = "Validating..."
            ∧ page_validate_disabled page = true
            ∧ page_results page = None
            ∧ step_js w (JUser ClickSave) = None
            ∧ step_js w (JUser ClickClear) = None
            ∧ step_js w (JUser ToggleValidation) = None
            ∧ step_js w (JUser TogglePreview) = None)
       ∧ (page_validate_label page = "Validate & Preview" ↔ loading (st (inner w)) = false)
       ∧ (page_validate_label page = "Validate & Preview" →
            validate_inflight (inner w) = 0%nat)).
Proof.
  intros (Hcount & Hres & Hok & _)%reachable_js_inv Hg.
  specialize (Hok Hg).
  destruct w as [[[d f r l b sv sp] dm vi si] h g]. simpl in *. subst g.
  split; [destruct l; lia|].
  destruct (render_js (mkState d f r l b sv sp)) as [page|] eqn:Hpage.
  2: { apply render_js_None in Hpage as (R & HR & _ & Hnone). simpl in HR.
       destruct (Hok R HR) as [? ?]. congruence. }
  exists page. split; [done|].
  unfold render_js in Hpage. simpl in Hpage.
  destruct l.
  - rewrite (Hres eq_refl) in Hpage. simpl in Hpage. simplify_eq. simpl.
    rewrite (Hres eq_refl). split_and!; try done; try (intros; lia).
  - assert (vi = 0%nat) as -> by lia.
    destruct r as [R|]; simpl in Hpage.
    + destruct sp; simpl in Hpage.
      * destruct (render_previews_js R); simpl in Hpage; simplify_eq. by split_and!.
      * simplify_eq. by split_and!.
    + simplify_eq. by split_and!.
Qed.

Lemma validating_page_js_witness :
  ∃ page : Page,
    render_js (st (inner validating_js)) = Some page
    ∧ (validate_inflight (inner validating_js) = 1%nat →
         page_validate_label page = "Validating..."
         ∧ page_validate_disabled page = true
         ∧ page_results page = None
         ∧ step_js validating_js (JUser ClickSave) = None
         ∧ step_js validating_js (JUser ClickClear) = None
         ∧ step_js validating_js (JUser ToggleValidation) = None
         ∧ step_js validating_js (JUser TogglePreview) = None)
    ∧ (page_validate_label page = "Validate & Preview"
       ↔ loading (st (inner validating_js)) = false)
    ∧ (page_validate_label page = "Validate & Preview" →
         validate_inflight (inner validating_js) = 0%nat).
Proof.
  apply (proj2 (validating_page_js validating_js validating_js_reachable eq_refl)).
Defined.

(** X9: a world with [loading] on is left only by the outstanding validate
    call settling, resolved or rejected with an alert. Every other event
    that can happen, a rejection whose [catch] block raises included, keeps
    [loading] on and the report absent and sends no POST; and once no
    validate call is outstanding, every event does. *)
Theorem loading_ends_with_response (w w' : WorldJs) (e : EventJs) (eff : list EffectJs) :
  reachable_js w →
  loading (st (inner w)) = true →
  step_js w e = Some (w', eff) →
  (validate_inflight (inner w) = 1%nat
   ∧ loading (st (inner w')) = false
   ∧ ((∃ data : Report, e = JValidateResolved data)
      ∨ (∃ (err : RawError) (msg : string),
           e = JValidateRejected err ∧ (catch_alert err).2 = Some msg)))
  ∨ (loading (st (inner w')) = true
     ∧ result (st (inner w')) = None
     ∧ ∀ (url : string) (body : Body), PostJs url body ∉ eff).
Proof.
  intros Hw Hl Hstep. pose proof (reachable_js_inv w Hw) as Hinv.
  destruct Hinv as (Hcount & Hres & _ & Hgone).
  specialize (Hres Hl). rewrite Hl in Hcount.
  destruct w as [i h g]. simpl in *.
  destruct e; simpl in Hstep.
  - destruct g; simplify_eq. right. simpl. split_and!; try done.
    intros url body Hin. apply list_elem_of_singleton in Hin. discriminate.
  - destruct h; simplify_eq. right. unfold update. simpl.
    destruct g; simpl; split_and!; try done; by intros ?? ?%elem_of_nil.
  - destruct h; simplify_eq. right. unfold update. simpl.
    destruct g; simpl; split_and!; try done; by intros ?? ?%elem_of_nil.
  - destruct g; simpl in Hstep; [done|].
    destruct (is_user_event e) eqn:Hu; simpl in Hstep; [|done].
    destruct (step i e) as [[i' eff']|] eqn:Hs; simplify_eq.
    destruct (user_event_while_loading _ _ _ _ Hu Hl Hres Hs) as (Hl' & Hr' & _ & Hreq).
    right. simpl. split_and!; try done.
    intros url body Hin.
    assert (length (filter (λ x, is_request x = true) (lift_effects eff')) = 0%nat) as Hlen.
    { by rewrite lift_effects_requests. }
    apply length_zero_iff_nil in Hlen.
    assert (PostJs url body ∈ filter (λ x, is_request x = true) (lift_effects eff')) as Hf.
    { by apply list_elem_of_filter. }
    rewrite Hlen in Hf. by apply elem_of_nil in Hf.
  - destruct (validate_inflight i) as [|n] eqn:Hn; simplify_eq.
    destruct g; [by specialize (Hgone eq_refl)|].
    left. unfold update. simpl. split_and!; [lia | done | eauto].
  - destruct (validate_inflight i) as [|n] eqn:Hn; simplify_eq.
    destruct g; [by specialize (Hgone eq_refl)|].
    unfold handleValidate_rejected_js, update. simpl.
    destruct (catch_alert err).2 as [msg|] eqn:Hmsg; simpl.
    + left. split_and!; [lia | done | eauto].
    + right. split_and!; try done.
      intros url body Hin. apply list_elem_of_singleton in Hin. discriminate.
  - destruct (save_inflight i) as [|n] eqn:Hn; simplify_eq. right.
    unfold update. simpl. destruct g; simpl; split_and!; try done.
    all: intros url body Hin; apply list_elem_of_singleton in Hin; discriminate.
  - destruct (save_inflight i) as [|n] eqn:Hn; simplify_eq. right.
    unfold update. simpl. destruct g; simpl; split_and!; try done.
    all: intros url body Hin; apply list_elem_of_singleton in Hin; discriminate.
Qed.

Lemma loading_ends_with_response_witness :
  (validate_inflight (inner stuck_js) = 1%nat
   ∧ loading (st (inner stuck_js)) = false
   ∧ ((∃ data : Report, JTick = JValidateResolved data)
      ∨ (∃ (err : RawError) (msg : string),
           JTick = JValidateRejected err ∧ (catch_alert err).2 = Some msg)))
  ∨ (loading (st (inner (mkWorldJs (inner stuck_js) 1 false))) = true
     ∧ result (st (inner (mkWorldJs (inner stuck_js) 1 false))) = None
     ∧ ∀ (url : string) (body : Body), PostJs url body ∉ [health_request]).
Proof.
  refine (loading_ends_with_response stuck_js (mkWorldJs (inner stuck_js) 1 false)
            JTick [health_request] _ eq_refl eq_refl).
  eapply reachable_js_step; [apply validating_js_reachable|].
  apply null_body_500_run.
Defined.

(** ** Requests *)

(** X7: what a request can be. On mount the page sends one GET to the
    health endpoint ([mount_effects]). After that an event sends at most
    one request, and it is: the health GET, sent by a tick of the interval;
    or the validate POST, sent by a click on the enabled button with the
    held file as body to the URL of a non-empty option of the [select],
    with the backend ready and no validate call outstanding; or the save
    POST, sent by a click on SAVE with the previews of a report whose
    [valid] holds. No settling promise sends a request. *)
Theorem requests_js_well_formed (w w' : WorldJs) (e : EventJs) (eff : list EffectJs) :
  reachable_js w →
  step_js w e = Some (w', eff) →
  (length (filter (λ x, is_request x = true) eff) ≤ 1)%nat
  ∧ ∀ x : EffectJs, x ∈ eff → is_request x = true →
      (e = JTick ∧ x = GetJs "http://localhost:8000/health")
      ∨ (e = JUser ClickValidate
         ∧ dataset (st (inner w)) ∈ ["Valuations"; "Risk"; "P&L"]
         ∧ (∃ f : File, file (st (inner w)) = Some f
              ∧ x = PostJs ("http://localhost:8000/validate/" +:+ dataset (st (inner w)))
                      (FormFile f))
         ∧ backendStatus (st (inner w)) = ready
         ∧ validate_inflight (inner w) = 0%nat)
      ∨ (e = JUser ClickSave
         ∧ dataset (st (inner w)) ∈ dataset_options
         ∧ ∃ R : Report, result (st (inner w)) = Some R ∧ valid R = true
             ∧ x = PostJs ("http://localhost:8000/save/" +:+ dataset (st (inner w)))
                     (JsonPreviews (previews R))).
Proof.
  intros Hw Hstep.
  pose proof (reachable_js_dataset w Hw) as Hd.
  destruct (reachable_js_inv w Hw) as (Hcount & _ & _ & _).
  destruct w as [i h g]. simpl in *.
  destruct e; simpl in Hstep.
  - destruct g; simplify_eq. split; [vm_compute; lia|].
    intros x Hx _. apply list_elem_of_singleton in Hx. left. by subst.
  - destruct h; simplify_eq. split; [vm_compute; lia|]. by intros x ?%elem_of_nil.
  - destruct h; simplify_eq. split; [vm_compute; lia|]. by intros x ?%elem_of_nil.
  - destruct g; simpl in Hstep; [done|].
    destruct (is_user_event e) eqn:Hu; simpl in Hstep; [|done].
    destruct (step i e) as [[i' eff']|] eqn:Hs; simplify_eq.
    split.
    { rewrite lift_effects_requests. by eapply step_requests. }
    intros x Hx Hreq. destruct x as [m|err|url|url body]; try discriminate Hreq.
    { exfalso. by eapply lift_effects_no_get. }
    destruct (user_event_posts i i' e eff' url body Hs Hx)
      as [(-> & Hen & -> & f & Hf & ->) | (-> & -> & R & HR & Hv & ->)].
    + right. left. apply validate_disabled_spec in Hen as (Hl & _ & Hne & Hready).
      split_and!; try done; [by apply dataset_offered | eauto |].
      rewrite Hl in Hcount. lia.
    + right. right. split_and!; try done. eauto.
  - destruct (validate_inflight i); simplify_eq. split; [vm_compute; lia|].
    by intros x ?%elem_of_nil.
  - destruct (validate_inflight i); simplify_eq.
    unfold handleValidate_rejected_js. destruct (catch_alert err).2; simpl.
    + split; [vm_compute; lia|]. intros x Hx Hreq.
      apply elem_of_cons in Hx as [-> | Hx]; [done|].
      apply list_elem_of_singleton in Hx. by subst.
    + split; [vm_compute; lia|]. intros x Hx Hreq.
      apply list_elem_of_singleton in Hx. by subst.
  - destruct (save_inflight i); simplify_eq. split; [vm_compute; lia|].
    intros x Hx Hreq. apply list_elem_of_singleton in Hx. by subst.
  - destruct (save_inflight i); simplify_eq. split; [vm_compute; lia|].
    intros x Hx Hreq. apply list_elem_of_singleton in Hx. by subst.
Qed.

Lemma requests_js_well_formed_witness :
  (length (filter (λ x, is_request x = true)
             [PostJs "http://localhost:8000/validate/Risk" (FormFile risk_file)]) ≤ 1)%nat
  ∧ ∀ x : EffectJs,
      x ∈ [PostJs "http://localhost:8000/validate/Risk" (FormFile risk_file)] →
      is_request x = true →
      (JUser ClickValidate = JTick ∧ x = GetJs "http://localhost:8000/health")
      ∨ (JUser ClickValidate = JUser ClickValidate
         ∧ dataset (st (inner selecting_js)) ∈ ["Valuations"; "Risk"; "P&L"]
         ∧ (∃ f : File, file (st (inner selecting_js)) = Some f
              ∧ x = PostJs ("http://localhost:8000/validate/"
                             +:+ dataset (st (inner selecting_js))) (FormFile f))
         ∧ backendStatus (st (inner selecting_js)) = ready
         ∧ validate_inflight (inner selecting_js) = 0%nat)
      ∨ (JUser ClickValidate = JUser ClickSave
         ∧ dataset (st (inner selecting_js)) ∈ dataset_options
         ∧ ∃ R : Report, result (st (inner selecting_js)) = Some R ∧ valid R = true
             ∧ x = PostJs ("http://localhost:8000/save/"
                            +:+ dataset (st (inner selecting_js)))
                     (JsonPreviews (previews R))).
Proof.
  apply (requests_js_well_formed selecting_js validating_js (JUser ClickValidate)
           [PostJs "http://localhost:8000/validate/Risk" (FormFile risk_file)]
           selecting_js_reachable).
  reflexivity.
Defined.

Example tick_sends_health_get :
  mount_effects = [GetJs "http://localhost:8000/health"]
  ∧ step_js selecting_js JTick
    = Some (mkWorldJs selecting_world 1 false, [GetJs "http://localhost:8000/health"])
  ∧ step_js selecting_js JHealthOk = None.
Proof. repeat split. Qed.

(** ** A resolved validate call *)

(** X12: when the outstanding validate call of a mounted page resolves,
    the response data becomes the report, both sections are opened,
    selector and file are kept and no validate call is outstanding. If the
    preview of the data renders, the page shows its checks and its preview
    and mounts SAVE exactly when [data.valid] holds. If it raises, which it
    does exactly when a previewed table with a cell in its first 20 rows
    has no coordinates of its own and a name every object inherits, the
    render raises and the page is gone: no click and no tick can follow. *)
Theorem validate_success_js (w : WorldJs) (data : Report) :
  reachable_js w →
  gone w = false →
  validate_inflight (inner w) ≠ 0%nat →
  ∃ w', step_js w (JValidateResolved data) = Some (w', [])
        ∧ result (st (inner w')) = Some data
        ∧ showValidation (st (inner w')) = true
        ∧ showPreview (st (inner w')) = true
        ∧ loading (st (inner w')) = false
        ∧ dataset (st (inner w')) = dataset (st (inner w))
        ∧ file (st (inner w')) = file (st (inner w))
        ∧ validate_inflight (inner w') = 0%nat
        ∧ (∀ tables : list (string * TableView),
             render_previews_js data = Some tables →
             gone w' = false
             ∧ render_js (st (inner w'))
               = Some {| page_status := backendStatus (st (inner w));
                         page_validate_disabled := validate_disabled (st (inner w'));
                         page_validate_label := "Validate & Preview";
                         page_results :=
                           Some {| rv_badge := if valid data then "PASSED" else "FAILED";
                                   rv_checks := Some (render_checks data);
                                   rv_previews := Some tables;
                                   rv_save_button := valid data |} |})
        ∧ (render_previews_js data = None →
             render_js (st (inner w')) = None
             ∧ gone w' = true
             ∧ step_js w' JTick = None
             ∧ ∀ e : Event, step_js w' (JUser e) = None)
        ∧ (render_previews_js data = None
           ↔ ∃ (T : string) (rows : list Row),
               (T, rows) ∈ previews data
               ∧ error_locations data !! T = None ∧ T ∈ object_prototype_names
               ∧ ∃ (i : nat) (row : Row), (i < 20)%nat ∧ rows !! i = Some row ∧ row ≠ []).
Proof.
  intros (Hcount & _ & _ & _)%reachable_js_inv Hg Hn.
  destruct w as [[[d f r l b sv sp] dm vi si] h g]. simpl in *. subst g.
  assert (vi = 1%nat) as -> by (destruct l; lia).
  eexists. split; [reflexivity|]. unfold update, rendered. simpl.
  split_and!; try done.
  - intros tables Ht. unfold render_js. simpl. rewrite Ht. simpl. by split.
  - intros Hnone. unfold render_js. simpl. rewrite Hnone. simpl. by split_and!.
  - apply render_previews_js_None.
Qed.

(** A response whose one preview table is named "constructor". *)
Lemma validate_success_js_witness :
  ∃ w', step_js validating_js (JValidateResolved constructor_report) = Some (w', [])
        ∧ result (st (inner w')) = Some constructor_report
        ∧ render_js (st (inner w')) = None
        ∧ gone w' = true
        ∧ step_js w' JTick = None
        ∧ ∀ e : Event, step_js w' (JUser e) = None.
Proof.
  destruct (validate_success_js validating_js constructor_report
              validating_js_reachable eq_refl ltac:(discriminate))
    as (w' & Hstep & HR & _ & _ & _ & _ & _ & _ & _ & Hnone & _).
  exists w'. split; [exact Hstep|]. split; [exact HR|].
  apply Hnone. reflexivity.
Defined.
